(** * transcription-scripts: row reconciliation over CSV row sources

    A shallow embedding of the scripts of the repository
    (reorder_to_match.py, add_durations.py, order_csvs.py, stitch_chunks.py,
    merge_files.py, compare_filenames.py, process.py) and the properties
    its specification states about them.

    Conventions of the embedding.
    - A row is the dict that [csv.DictReader] yields: a finite map from
      column names to cells.  A file is given by its path, the reader's
      [fieldnames] ([None] for a file without a header line, as in Python)
      and its rows in file order.  The files considered are those whose
      records have as many cells as the header ([rectangular]); a script
      that indexes a row by a column the row lacks raises [KeyError], as
      [row[column]] does.
    - [print] appends a line to the console; a script function returns its
      console together with what it wrote, returns early after reporting an
      error ([Aborted]), or ends in an uncaught exception ([Raised]).
    - The iteration order of a Python [set] is not fixed by the language;
      it is a parameter [set_iter] of the development.
    - Whether two paths name one file is a parameter [samefile].  A script
      that opens its output for writing before it has read an input reads
      that input emptied when both are one file ([add_durations]); the
      concatenators, which list their inputs before they open the output,
      read a listed output file as the parameter [reopen] says.
    - A file read record by record with [csv.reader] can fail part-way;
      the records read before the failure have been processed. *)

From Stdlib Require Import Ascii.
From stdpp Require Import gmap strings list fin_maps sorting pretty.

(** ** Rows, files, outcomes *)

Abbreviation Row := (gmap string string).

Record csv_file := CsvFile {
  path : string;
  fieldnames : option (list string);
  rows : list Row
}.

Definition rectangular (f : csv_file) : Prop :=
  match fieldnames f with
  | None => rows f = []
  | Some headers => Forall (λ row : Row, dom row = list_to_set headers) (rows f)
  end.

Definition has_column (column : string) (f : csv_file) : Prop :=
  match fieldnames f with
  | None => False
  | Some headers => column ∈ headers
  end.

Global Instance rectangular_dec f : Decision (rectangular f).
Proof. unfold rectangular. destruct (fieldnames f); apply _. Defined.

Global Instance has_column_dec column f : Decision (has_column column f).
Proof. unfold has_column. destruct (fieldnames f); apply _. Defined.

Inductive exn :=
| KeyError (key : string)
| TypeError (message : string).

Inductive result (A : Type) :=
| Ok (a : A)
| Err (e : exn).
Arguments Ok {A} a.
Arguments Err {A} e.

Global Instance result_bind : MBind result := λ A B k x,
  match x with
  | Ok a => k a
  | Err e => Err e
  end.

(** [for row in reader: state = body(state, row)], stopping at the first
    exception. *)
Fixpoint for_each {S A} (body : S → A → result S) (s : S) (l : list A) : result S :=
  match l with
  | [] => Ok s
  | x :: l' => s' ← body s x ; for_each body s' l'
  end.

(** [row[column]] *)
Definition getitem (row : Row) (column : string) : result string :=
  match row !! column with
  | Some cell => Ok cell
  | None => Err (KeyError column)
  end.

Inductive outcome (A : Type) :=
| Done (console : list string) (a : A)
| Aborted (console : list string)
| Raised (e : exn).
Arguments Done {A} console a.
Arguments Aborted {A} console.
Arguments Raised {A} e.

Definition nl : string := String (Ascii.ascii_of_nat 10) "".

(** [', '.join(items)] *)
Definition join_comma (items : list string) : string := String.concat ", " items.

(** ** [sorted(rows, key=...)]: a stable sort on the key strings

    Python compares [str] by code point, which on UTF-8 text is the
    byte-wise order [String.leb]; [sorted] is stable. *)

Fixpoint insert_keyed {A} (kx : string * A) (l : list (string * A)) : list (string * A) :=
  match l with
  | [] => [kx]
  | ky :: l' =>
      if String.leb kx.1 ky.1 then kx :: ky :: l' else ky :: insert_keyed kx l'
  end.

Definition sort_keyed {A} (l : list (string * A)) : list (string * A) :=
  foldr insert_keyed [] l.

(** ** reorder_to_match.py *)

Record reorder_state := ReorderState {
  reordered_rows : list Row;
  missing_count : nat;
  warnings : list string
}.

Record reorder_report := ReorderReport {
  reference_order : list string;
  rows_dict : gmap string Row;
  extra_keys : gset string;
  missing : nat;
  output : csv_file
}.

Section reorder.
Variable set_iter : gset string → list string.

(** lines 24-28 *)
Definition read_reference_order (match_column : string) (reference_rows : list Row)
    : result (list string) :=
  for_each (λ order row, key ← getitem row match_column ; Ok (order ++ [key]))
           [] reference_rows.

(** lines 46-48 *)
Definition load_rows_dict (match_column : string) (target_rows : list Row)
    : result (gmap string Row) :=
  for_each (λ (d : gmap string Row) row,
              key ← getitem row match_column ; Ok (<[key := row]> d))
           ∅ target_rows.

(** lines 57-62 *)
Definition reorder_step (d : gmap string Row) (st : reorder_state) (ref_key : string)
    : reorder_state :=
  match d !! ref_key with
  | Some row =>
      ReorderState (reordered_rows st ++ [row]) (missing_count st) (warnings st)
  | None =>
      ReorderState (reordered_rows st) (S (missing_count st))
        (warnings st ++
           ["  Warning: '" +:+ ref_key +:+ "' in reference but not in file to reorder"])
  end.

Definition reorder_loop (d : gmap string Row) (order : list string) : reorder_state :=
  foldl (reorder_step d) (ReorderState [] 0 []) order.

(** lines 75-76: [rows_dict[key]] for each extra key *)
Definition extra_rows (d : gmap string Row) (keys : list string) : result (list Row) :=
  for_each (λ acc key,
              match d !! key with
              | Some row => Ok (acc ++ [row])
              | None => Err (KeyError key)
              end)
           [] keys.

(** lines 66-72 *)
Definition extra_warnings (file_to_reorder : string) (extra : gset string)
    : list string :=
  if bool_decide (extra = ∅) then []
  else
    [nl +:+ "  Warning: " +:+ pretty (size extra) +:+ " rows in " +:+ file_to_reorder
        +:+ " not in reference file";
     "  These will be appended at the end:"]
    ++ ((λ key, "    - " +:+ key) <$> take 5 (merge_sort String.le (set_iter extra)))
    ++ (if bool_decide (5 < size extra)
        then ["    ... and " +:+ pretty (size extra - 5) +:+ " more"] else []).

(** lines 85-90 *)
Definition reorder_summary (output_file : string) (written : list Row)
    (extra : gset string) (missing_count : nat) : list string :=
  [nl +:+ "Success! Wrote " +:+ pretty (length written) +:+ " rows to " +:+ output_file;
   "Rows matched: " +:+
     pretty (Z.of_nat (length written) - Z.of_nat (size extra) - Z.of_nat missing_count)%Z]
  ++ (if bool_decide (0 < missing_count)
      then ["Rows missing: " +:+ pretty missing_count] else [])
  ++ (if bool_decide (extra = ∅) then []
      else ["Extra rows appended: " +:+ pretty (size extra)]).

Definition reorder_to_match (reference_file file_to_reorder : csv_file)
    (output_file match_column : string) : outcome reorder_report :=
  match read_reference_order match_column (rows reference_file) with
  | Err e => Raised e
  | Ok order =>
    let console1 :=
      ["Reading reference order from " +:+ path reference_file +:+ "...";
       "Found " +:+ pretty (length order) +:+ " rows in reference file";
       nl +:+ "Reading " +:+ path file_to_reorder +:+ "..."] in
    match fieldnames file_to_reorder with
    | None => Raised (TypeError "argument of type 'NoneType' is not iterable")
    | Some headers =>
      if bool_decide (match_column ∈ headers) then
        match load_rows_dict match_column (rows file_to_reorder) with
        | Err e => Raised e
        | Ok d =>
          let st := reorder_loop d order in
          let extra : gset string := dom d ∖ list_to_set order in
          match (if bool_decide (extra = ∅) then Ok []
                 else extra_rows d (set_iter extra)) with
          | Err e => Raised e
          | Ok appended =>
            let written := reordered_rows st ++ appended in
            Done (console1
                  ++ ["Found " +:+ pretty (size d) +:+ " rows in file to reorder";
                      nl +:+ "Reordering to match reference file..."]
                  ++ warnings st
                  ++ extra_warnings (path file_to_reorder) extra
                  ++ [nl +:+ "Writing reordered file to " +:+ output_file +:+ "..."]
                  ++ reorder_summary output_file written extra (missing_count st))
                 (ReorderReport order d extra (missing_count st)
                    (CsvFile output_file (Some headers) written))
          end
        end
      else
        Aborted (console1
                 ++ ["Error: Column '" +:+ match_column +:+ "' not found in "
                       +:+ path file_to_reorder;
                     "Available columns: " +:+ join_comma headers])
    end
  end.
End reorder.

(** ** add_durations.py *)

Record join_state := JoinState {
  out_rows : list Row;
  rows_processed : nat;
  rows_matched : nat;
  rows_unmatched : nat;
  join_warnings : list string
}.

Record join_report := JoinReport {
  duration_map : gmap string string;
  processed : nat;
  matched : nat;
  unmatched : nat;
  joined : csv_file
}.

(** lines 24-29 *)
Definition load_duration_map (metadata_rows : list Row) : result (gmap string string) :=
  for_each (λ (d : gmap string string) row,
              filename ← getitem row "Filename";
              duration ← getitem row "duration_sec";
              Ok (<[filename := duration]> d))
           ∅ metadata_rows.

(** line 52: [row.get('Transcription') or row.get('transcript', '')] *)
Definition transcription_of (row : Row) : string :=
  match row !! "Transcription" with
  | Some t => if bool_decide (t = "") then default "" (row !! "transcript") else t
  | None => default "" (row !! "transcript")
  end.

Definition joined_row (filename duration transcription : string) : Row :=
  {[ "Filename" := filename; "duration_sec" := duration; "transcript" := transcription ]}.

Definition no_duration_warning (filename : string) : string :=
  "  Warning: No duration found for " +:+ filename.

(** lines 49-70, the loop body *)
Definition join_step (d : gmap string string) (st : join_state) (row : Row)
    : result join_state :=
  filename ← getitem row "Filename";
  let transcription := transcription_of row in
  let duration := default "" (d !! filename) in
  let out := out_rows st ++ [joined_row filename duration transcription] in
  if bool_decide (duration = "") then
    Ok (JoinState out (S (rows_processed st)) (rows_matched st)
          (S (rows_unmatched st)) (join_warnings st ++ [no_duration_warning filename]))
  else
    Ok (JoinState out (S (rows_processed st)) (S (rows_matched st))
          (rows_unmatched st) (join_warnings st)).

Definition join_loop (d : gmap string string) (transcription_rows : list Row)
    : result join_state :=
  for_each (join_step d) (JoinState [] 0 0 0 []) transcription_rows.

Section add_durations.
(** [os.path.samefile]: whether two paths name one file *)
Variable samefile : string → string → bool.

(** lines 39-41: the output file is opened for writing, which empties it,
    after the transcriptions file is opened and before its first line is
    read; when both paths name one file the reader finds no line. *)
Definition rows_read (transcriptions_file : csv_file) (output_file : string)
    : list Row :=
  if samefile output_file (path transcriptions_file) then []
  else rows transcriptions_file.

Definition add_durations (metadata_file transcriptions_file : csv_file)
    (output_file : string) : outcome join_report :=
  match load_duration_map (rows metadata_file) with
  | Err e => Raised e
  | Ok d =>
    match join_loop d (rows_read transcriptions_file output_file) with
    | Err e => Raised e
    | Ok st =>
      Done (["Reading metadata from " +:+ path metadata_file +:+ "...";
             "Loaded " +:+ pretty (size d) +:+ " duration entries";
             nl +:+ "Processing transcriptions from " +:+ path transcriptions_file +:+ "..."]
            ++ join_warnings st
            ++ [nl +:+ "Processing complete!";
                "Total rows processed: " +:+ pretty (rows_processed st);
                "Rows matched: " +:+ pretty (rows_matched st);
                "Rows unmatched: " +:+ pretty (rows_unmatched st);
                nl +:+ "Output written to: " +:+ output_file])
           (JoinReport d (rows_processed st) (rows_matched st) (rows_unmatched st)
              (CsvFile output_file (Some ["Filename"; "duration_sec"; "transcript"])
                 (out_rows st)))
    end
  end.
End add_durations.

(** ** order_csvs.py *)

(** [sorted(rows, key=lambda x: x[sort_column])] *)
Definition keyed (sort_column : string) (l : list Row) : result (list (string * Row)) :=
  for_each (λ acc row, key ← getitem row sort_column; Ok (acc ++ [(key, row)])) [] l.

Definition sorted_by_column (sort_column : string) (l : list Row) : result (list Row) :=
  decorated ← keyed sort_column l; Ok (snd <$> sort_keyed decorated).

(** [[row[sort_column] for row in rows]] *)
Definition column_values (sort_column : string) (l : list Row) : result (list string) :=
  for_each (λ acc row, value ← getitem row sort_column; Ok (acc ++ [value])) [] l.

Section order_csvs.
(** [Path(p).stem] and [Path(p).suffix] of pathlib *)
Variables path_stem path_suffix : string → string.

Definition missing_column_report (column file : string) (headers : list string)
    : list string :=
  ["Error: Column '" +:+ column +:+ "' not found in " +:+ file;
   "Available columns: " +:+ join_comma headers].

(** lines 82-96 *)
Definition compare_report (file1 file2 sort_column : string) (values1 values2 : list string)
    : list string :=
  if bool_decide (values1 = values2) then
    [nl +:+ "✓ Both files have matching " +:+ sort_column +:+ " values in the same order"]
  else
    let in_1_not_2 : gset string := list_to_set values1 ∖ list_to_set values2 in
    let in_2_not_1 : gset string := list_to_set values2 ∖ list_to_set values1 in
    [nl +:+ "⚠ Warning: Files have different " +:+ sort_column +:+ " values"]
    ++ (if bool_decide (in_1_not_2 = ∅) then []
        else ["  In " +:+ file1 +:+ " but not " +:+ file2 +:+ ": "
                +:+ pretty (size in_1_not_2) +:+ " items"])
    ++ (if bool_decide (in_2_not_1 = ∅) then []
        else ["  In " +:+ file2 +:+ " but not " +:+ file1 +:+ ": "
                +:+ pretty (size in_2_not_1) +:+ " items"]).

Definition order_csv_files (file1 file2 : csv_file) (sort_column output_suffix : string)
    : outcome (csv_file * csv_file) :=
  let console1 := ["Reading " +:+ path file1 +:+ "..."; "Reading " +:+ path file2 +:+ "..."] in
  match fieldnames file1, fieldnames file2 with
  | None, _ => Raised (TypeError "argument of type 'NoneType' is not iterable")
  | Some headers1, headers2 =>
    if bool_decide (sort_column ∈ headers1) then
      match headers2 with
      | None => Raised (TypeError "argument of type 'NoneType' is not iterable")
      | Some headers2 =>
        if bool_decide (sort_column ∈ headers2) then
          match sorted_by_column sort_column (rows file1),
                sorted_by_column sort_column (rows file2) with
          | Err e, _ => Raised e
          | Ok _, Err e => Raised e
          | Ok rows1_sorted, Ok rows2_sorted =>
            let output1 := path_stem (path file1) +:+ output_suffix +:+ path_suffix (path file1) in
            let output2 := path_stem (path file2) +:+ output_suffix +:+ path_suffix (path file2) in
            match column_values sort_column rows1_sorted,
                  column_values sort_column rows2_sorted with
            | Err e, _ => Raised e
            | Ok _, Err e => Raised e
            | Ok values1, Ok values2 =>
              Done (console1
                    ++ [nl +:+ "Sorting both files by '" +:+ sort_column +:+ "'...";
                        nl +:+ "Writing ordered " +:+ output1 +:+ "...";
                        "Writing ordered " +:+ output2 +:+ "...";
                        nl +:+ "Success!";
                        "File 1: " +:+ pretty (length rows1_sorted) +:+ " rows written to " +:+ output1;
                        "File 2: " +:+ pretty (length rows2_sorted) +:+ " rows written to " +:+ output2]
                    ++ compare_report (path file1) (path file2) sort_column
                         values1 values2)
                   (CsvFile output1 (Some headers1) rows1_sorted,
                    CsvFile output2 (Some headers2) rows2_sorted)
            end
          end
        else Aborted (console1 ++ missing_column_report sort_column (path file2) headers2)
      end
    else Aborted (console1 ++ missing_column_report sort_column (path file1) headers1)
  end.
End order_csvs.

(** ** stitch_chunks.py and merge_files.py

    A file of the input folder is given by what opening and reading it with
    [csv.reader] yields: an exception when it is opened; its records
    (header first), read to the end; or some records followed by an
    exception that the reader raises part-way (a decoding error, a
    [csv.Error]). *)

Inductive file_content :=
| Unreadable (error : string)
| Readable (records : list (list string))
| Interrupted (records : list (list string)) (error : string).

Global Instance file_content_eq_dec : EqDecision file_content.
Proof. solve_decision. Defined.

Record concat_state := ConcatState {
  header_written : bool;
  written : list (list string);
  rows_written : nat;
  concat_log : list string
}.

Record concat_report := ConcatReport {
  merged_files : list (string * file_content);
  total_rows : nat;
  output_records : list (list string)
}.

(** stitch_chunks.py lines 47-71: one file, read as [content].  The rows
    are written and counted as they are read, so those read before an
    exception stay written; the handler of line 69 only reports it. *)
Definition stitch_file (st : concat_state) (csv_file : string) (content : file_content)
    : concat_state :=
  let log := concat_log st ++ ["Processing: " +:+ csv_file] in
  let error_line e := "  Error processing " +:+ csv_file +:+ ": " +:+ e in
  match content with
  | Unreadable e | Interrupted [] e =>
      ConcatState (header_written st) (written st) (rows_written st)
        (log ++ [error_line e])
  | Readable [] =>
      ConcatState (header_written st) (written st) (rows_written st)
        (log ++ ["  Warning: " +:+ csv_file +:+ " is empty, skipping..."])
  | Readable (header :: data) =>
      ConcatState true
        ((if header_written st then written st else written st ++ [header]) ++ data)
        (rows_written st + length data) log
  | Interrupted (header :: data) e =>
      ConcatState true
        ((if header_written st then written st else written st ++ [header]) ++ data)
        (rows_written st + length data) (log ++ [error_line e])
  end.

(** [needle in haystack] on strings *)
Fixpoint contains (needle haystack : string) : bool :=
  String.prefix needle haystack ||
  match haystack with
  | EmptyString => false
  | String _ rest => contains needle rest
  end.


Definition rule : string := String.concat "" (replicate 60 "=").

Section concatenators.
(** [os.path.samefile]: whether two paths name one file *)
Variable samefile : string → string → bool.
(** What reading the output file yields while the run is writing it, when
    that reading comes to an end, given the records written so far: opening
    the file for writing has emptied it, and what it holds since is what
    the buffered writer has let through. *)
Variable reopen : list (list string) → file_content.

(** The folder is listed before the output file is opened (stitch_chunks.py
    line 26 and 41, merge_files.py line 55 and 72), so a listed file can be
    the output file itself; every other file is read as it was listed. *)
Definition read_file (output_file : string) (st : concat_state)
    (file : string * file_content) : file_content :=
  if samefile output_file file.1 then reopen (written st) else file.2.

(** stitch_chunks.py lines 44-71, the body of the loop over [csv_files] *)
Definition stitch_step (output_file : string) (st : concat_state)
    (csv_file : string * file_content) : concat_state :=
  stitch_file st csv_file.1 (read_file output_file st csv_file).

Definition stitch_csv_files (input_folder : string) (glob : list (string * file_content))
    (output_file : string) (sort_files : bool) : outcome concat_report :=
  match glob with
  | [] => Aborted ["No CSV files found in folder: " +:+ input_folder]
  | _ :: _ =>
    let csv_files := if sort_files then sort_keyed glob else glob in
    let st := foldl (stitch_step output_file) (ConcatState false [] 0 []) csv_files in
    Done (["Found " +:+ pretty (length csv_files) +:+ " CSV files to stitch together"]
          ++ concat_log st
          ++ [nl +:+ "Successfully stitched " +:+ pretty (length csv_files)
                +:+ " files into " +:+ output_file;
              "Total rows written: " +:+ pretty (rows_written st)])
         (ConcatReport csv_files (rows_written st) (written st))
  end.

(** [os.path.basename] and [str.lower] *)
Variables basename lower : string → string.

(** merge_files.py lines 15-33 *)
Definition find_file_by_name (all_files : list (string * file_content))
    (name_pattern : string) : option (string * file_content) :=
  head (filter (λ file, contains (lower name_pattern) (lower (basename file.1)) = true)
               all_files).




End concatenators.

(** ** compare_filenames.py

    The two files are given by their paths and by the records [csv.reader]
    yields for them (header first). *)

Record filenames_report := FilenamesReport {
  filenames1 : list string;
  filenames2 : list string;
  only_in_file1 : gset string;
  only_in_file2 : gset string;
  common : gset string
}.

Inductive compare_outcome :=
| Compared (console : list string) (report : filenames_report)
| StopIteration.

(** lines 24-30: [next(reader)], then the first cell of every record that is
    not empty *)
Definition read_filenames (records : list (list string)) : option (list string) :=
  match records with
  | [] => None
  | header :: data =>
      Some (foldl (λ filenames row,
                     match row with
                     | [] => filenames
                     | cell :: _ => filenames ++ [cell]
                     end) [] data)
  end.

(** [filenames.count(f)] *)
Definition count_of (f : string) (filenames : list string) : nat :=
  length (filter (λ g, g = f) filenames).

Section compare_filenames.
Variable set_iter : gset string → list string.

(** [sorted(s)] for a set or list of strings *)
Definition sorted_strings (l : list string) : list string := merge_sort String.le l.

(** lines 55-60 and 62-67 *)
Definition only_in_report (file : string) (only : gset string) : list string :=
  if bool_decide (only = ∅) then []
  else
    [nl +:+ nl +:+ rule;
     "Filenames ONLY in " +:+ file +:+ ": " +:+ pretty (size only);
     rule]
    ++ ((λ filename, "  - " +:+ filename) <$> sorted_strings (set_iter only)).

(** lines 73-74: [[f for f in set1 if filenames1.count(f) > 1]] *)
Definition duplicates (keys : gset string) (filenames : list string) : list string :=
  filter (λ f, 1 < count_of f filenames) (set_iter keys).

(** lines 76-80 and 82-86 *)
Definition duplicates_report (file : string) (dups filenames : list string)
    : list string :=
  match dups with
  | [] => []
  | _ :: _ =>
      [nl +:+ "Duplicates in " +:+ file +:+ ":"]
      ++ ((λ dup, "  - " +:+ dup +:+ " appears " +:+ pretty (count_of dup filenames)
                    +:+ " times") <$> sorted_strings dups)
  end.

Definition compare_filenames (file1 : string) (records1 : list (list string))
    (file2 : string) (records2 : list (list string)) : compare_outcome :=
  match read_filenames records1 with
  | None => StopIteration
  | Some filenames1 =>
    match read_filenames records2 with
    | None => StopIteration
    | Some filenames2 =>
      let set1 : gset string := list_to_set filenames1 in
      let set2 : gset string := list_to_set filenames2 in
      let only_in_file1 := set1 ∖ set2 in
      let only_in_file2 := set2 ∖ set1 in
      Compared
        ([nl +:+ "Comparing filenames between:";
          "  File 1: " +:+ file1;
          "  File 2: " +:+ file2;
          rule;
          nl +:+ "File 1 total filenames: " +:+ pretty (length filenames1);
          "File 2 total filenames: " +:+ pretty (length filenames2);
          "File 1 unique filenames: " +:+ pretty (size set1);
          "File 2 unique filenames: " +:+ pretty (size set2);
          "Common filenames: " +:+ pretty (size (set1 ∩ set2))]
         ++ only_in_report file1 only_in_file1
         ++ only_in_report file2 only_in_file2
         ++ (if bool_decide (only_in_file1 = ∅) && bool_decide (only_in_file2 = ∅)
             then
               [nl +:+ "✓ Both files have the exact same filenames!"]
               ++ duplicates_report file1 (duplicates set1 filenames1) filenames1
               ++ duplicates_report file2 (duplicates set2 filenames2) filenames2
             else []))
        (FilenamesReport filenames1 filenames2 only_in_file1 only_in_file2 (set1 ∩ set2))
    end
  end.
End compare_filenames.

(** ** process.py

    The environment of a run: which paths exist and are directories, what
    [Path(folder).glob("*.csv")] lists, whether [os.makedirs] succeeds, and
    what [subprocess.run] returns for a command.  [print] to standard
    output and to standard error are kept apart. *)

Record completed_process := CompletedProcess {
  stdout : string;
  stderr : string;
  returncode : Z
}.

Record environment := Environment {
  path_exists : string → bool;
  path_isdir : string → bool;
  glob_csv : string → list string;
  makedirs : string → option string;
  subprocess_run : list string → completed_process
}.

Inductive ending :=
| Returned
| SysExit (status : Z)
| Uncaught (error : string).

Record process_state := ProcessState {
  printed : list string;
  printed_err : list string;
  commands_run : list (list string)
}.

(** lines 23-51 *)
Definition run_command (env : environment) (command : list string) (description : string)
    (st : process_state) : process_state * ending :=
  let result := subprocess_run env command in
  let out1 :=
    printed st
    ++ [nl +:+ rule; "Step: " +:+ description; rule;
        "Running: " +:+ String.concat " " command +:+ nl]
    ++ (if bool_decide (stdout result = "") then [] else [stdout result]) in
  let err1 :=
    printed_err st
    ++ (if bool_decide (stderr result = "") then []
        else ["Errors/Warnings:"; stderr result]) in
  let commands := commands_run st ++ [command] in
  if bool_decide (returncode result ≠ 0%Z) then
    (ProcessState
       (out1 ++ [nl +:+ "Error: Command failed with exit code "
                   +:+ pretty (returncode result)])
       err1 commands,
     SysExit 1)
  else
    (ProcessState (out1 ++ ["✓ " +:+ description +:+ " completed successfully"])
       err1 commands,
     Returned).

(** [s.endswith('/')] *)
Fixpoint ends_with_slash (s : string) : bool :=
  match s with
  | EmptyString => false
  | String c EmptyString => bool_decide (c = "/"%char)
  | String _ rest => ends_with_slash rest
  end.

(** [os.path.join(a, b)] of posixpath: an absolute [b] replaces [a]; no
    slash is added after an empty [a] or one that ends in a slash. *)
Definition path_join (a b : string) : string :=
  if String.prefix "/" b then b
  else if bool_decide (a = "") || ends_with_slash a then a +:+ b
  else a +:+ "/" +:+ b.

(** lines 54-131 *)
Definition process_transcriptions (env : environment) (name : string)
    : process_state * ending :=
  let input_folder := name +:+ "_files" in
  let output_folder := name +:+ "_generated_files" in
  let metadata_file := "metadata_copy.csv" in
  let combined_file := path_join output_folder "combined_transcriptions.csv" in
  let with_duration_file :=
    path_join output_folder "combined_transcriptions_duration.csv" in
  let final_file := path_join output_folder (name +:+ "_final.csv") in
  let out0 :=
    [nl +:+ rule; "Processing transcriptions for: " +:+ name; rule;
     "Input folder: " +:+ input_folder;
     "Output folder: " +:+ output_folder;
     "Metadata file: " +:+ metadata_file] in
  if negb (path_exists env input_folder) then
    (ProcessState
       (out0 ++ [nl +:+ "Error: Input folder '" +:+ input_folder +:+ "' does not exist";
                 "Please create a folder named '" +:+ input_folder
                   +:+ "' with CSV files to process"]) [] [],
     SysExit 1)
  else if negb (path_isdir env input_folder) then
    (ProcessState
       (out0 ++ [nl +:+ "Error: '" +:+ input_folder +:+ "' exists but is not a directory"])
       [] [],
     SysExit 1)
  else
    let csv_files := glob_csv env input_folder in
    match csv_files with
    | [] =>
        (ProcessState
           (out0 ++ [nl +:+ "Error: No CSV files found in '" +:+ input_folder +:+ "'"])
           [] [],
         SysExit 1)
    | _ :: _ =>
      let out1 := out0 ++ ["Found " +:+ pretty (length csv_files) +:+ " CSV files to process"] in
      if negb (path_exists env metadata_file) then
        (ProcessState
           (out1 ++ [nl +:+ "Error: Metadata file '" +:+ metadata_file +:+ "' not found";
                     "Please ensure '" +:+ metadata_file
                       +:+ "' exists in the current directory"]) [] [],
         SysExit 1)
      else
        match makedirs env output_folder with
        | Some error => (ProcessState out1 [] [], Uncaught error)
        | None =>
          let st0 := ProcessState (out1 ++ ["Output folder ready: " +:+ output_folder])
                       [] [] in
          match run_command env
                  ["python3"; "stitch_chunks.py"; "-i"; input_folder; "-o"; combined_file]
                  ("Stitching CSV files from " +:+ input_folder) st0 with
          | (st1, Returned) =>
            match run_command env
                    ["python3"; "add_durations.py"; "-m"; metadata_file;
                     "-t"; combined_file; "-o"; with_duration_file]
                    "Adding duration_sec column from metadata" st1 with
            | (st2, Returned) =>
              match run_command env
                      ["python3"; "reorder_to_match.py"; "-r"; metadata_file;
                       "-i"; with_duration_file; "-o"; final_file]
                      "Reordering to match metadata row order" st2 with
              | (st3, Returned) =>
                  (ProcessState
                     (printed st3
                      ++ [nl +:+ rule; "Processing complete for " +:+ name +:+ "!"; rule;
                          nl +:+ "Generated files:";
                          "  1. " +:+ combined_file;
                          "  2. " +:+ with_duration_file;
                          "  3. " +:+ final_file +:+ " (final output)";
                          nl +:+ "All files saved in: " +:+ output_folder])
                     (printed_err st3) (commands_run st3),
                   Returned)
              | failed => failed
              end
            | failed => failed
            end
          | failed => failed
          end
        end
    end.

(** lines 134-156: the module-level [metadata_file] that [main] assigns is
    returned with the run; [process_transcriptions] has a local variable of
    the same name and never reads the global one. *)
Definition main (env : environment) (name metadata : string)
    : option string * (process_state * ending) :=
  let global_metadata_file :=
    if bool_decide (metadata ≠ "metadata_copy.csv") then Some metadata else None in
  (global_metadata_file, process_transcriptions env name).

(** The three commands of the pipeline, as [process_transcriptions] builds
    them for a name.  The final file is joined from the output folder and
    [name_final.csv]; for a name that starts with a slash the second
    component is absolute and [os.path.join] returns it alone. *)
Definition final_path (name : string) : string :=
  if String.prefix "/" name then name +:+ "_final.csv"
  else name +:+ "_generated_files/" +:+ name +:+ "_final.csv".

Definition stitch_command (name : string) : list string :=
  ["python3"; "stitch_chunks.py"; "-i"; name +:+ "_files";
   "-o"; name +:+ "_generated_files/combined_transcriptions.csv"].

Definition add_durations_command (name : string) : list string :=
  ["python3"; "add_durations.py"; "-m"; "metadata_copy.csv";
   "-t"; name +:+ "_generated_files/combined_transcriptions.csv";
   "-o"; name +:+ "_generated_files/combined_transcriptions_duration.csv"].

Definition reorder_command (name : string) : list string :=
  ["python3"; "reorder_to_match.py"; "-r"; "metadata_copy.csv";
   "-i"; name +:+ "_generated_files/combined_transcriptions_duration.csv";
   "-o"; final_path name].

(** An environment in which the folder of [Sarah] holds one file and the
    second step of the pipeline fails. *)
Definition failing_join_environment : environment :=
  Environment
    (λ path, bool_decide (path = "Sarah_files") || bool_decide (path = "metadata_copy.csv"))
    (λ path, bool_decide (path = "Sarah_files"))
    (λ folder, if bool_decide (folder = "Sarah_files") then ["Sarah_files/a.csv"] else [])
    (λ _, None)
    (λ command,
       if bool_decide (command !! 1 = Some "add_durations.py")
       then CompletedProcess "" "KeyError: 'Filename'" 1
       else CompletedProcess "ok" "" 0).

(** * Vocabulary of the properties *)

(** The key-column values of a row sequence, in row order. *)
Definition keys_of (column : string) (l : list Row) : list string :=
  omap (λ row : Row, row !! column) l.

Definition defines (column : string) (l : list Row) : Prop :=
  Forall (λ row : Row, is_Some (row !! column)) l.

Definition missing_warning (ref_key : string) : string :=
  "  Warning: '" +:+ ref_key +:+ "' in reference but not in file to reorder".

(** The source with every row dropped that a later row with the same key
    overrides. *)
Fixpoint last_wins (column : string) (l : list Row) : list Row :=
  match l with
  | [] => []
  | row :: rest =>
      if bool_decide (row !! column ∈ (λ r : Row, r !! column) <$> rest)
      then last_wins column rest
      else row :: last_wins column rest
  end.

Definition with_rows (f : csv_file) (l : list Row) : csv_file :=
  CsvFile (path f) (fieldnames f) l.

(** The key of a transcription row, the duration looked up for it, and the
    row written for it. *)
Definition filename_of (row : Row) : string := default "" (row !! "Filename").

Definition looked_up (d : gmap string string) (row : Row) : string :=
  default "" (d !! filename_of row).

Definition join_row (d : gmap string string) (row : Row) : Row :=
  joined_row (filename_of row) (looked_up d row) (transcription_of row).

(** A row paired with its sort key, as [sorted] pairs them. *)
Definition decorate (column : string) (row : Row) : string * Row :=
  (default "" (row !! column), row).

(** What a file contributes to a concatenation: the header and the data
    rows read from it, which are all its rows or those read before the
    reader failed; nothing when it cannot be opened, is empty, or fails
    before its header is read. *)
Definition contents (file : string * file_content)
    : option (list string * list (list string)) :=
  match file.2 with
  | Readable (header :: data) | Interrupted (header :: data) _ => Some (header, data)
  | _ => None
  end.

(** A file fails part-way when the reader raises after it has yielded the
    header. *)
Definition fails_part_way (file : string * file_content) : Prop :=
  match file.2 with
  | Interrupted (_ :: _) _ => True
  | _ => False
  end.

Global Instance fails_part_way_dec file : Decision (fails_part_way file).
Proof. unfold fails_part_way. destruct file.2 as [?|?|[|? ?] ?]; apply _. Defined.




Definition included (files : list (string * file_content))
    : list (list string * list (list string)) :=
  omap contents files.

(** The header of the first included file, then the data rows of all
    included files in file order. *)
Definition concatenation (files : list (string * file_content)) : list (list string) :=
  match included files with
  | [] => []
  | (header, _) :: _ => header :: concat (included files).*2
  end.

Definition data_row_count (files : list (string * file_content)) : nat :=
  sum_list (length <$> (included files).*2).

(** ** Example files *)

(** A file system in which two paths name one file exactly when they are
    the same string. *)
Definition same_path (p q : string) : bool := bool_decide (p = q).

Definition wav (filename duration : string) : Row :=
  {[ "Filename" := filename; "duration_sec" := duration ]}.

Definition two_key_reference : csv_file :=
  CsvFile "metadata.csv" (Some ["Filename"; "duration_sec"])
    [wav "a.wav" "1.2"; wav "b.wav" "2.0"].

Definition one_key_target : csv_file :=
  CsvFile "combined.csv" (Some ["Filename"; "duration_sec"]) [wav "b.wav" "2.0"].

Definition reference_ab : csv_file :=
  CsvFile "metadata.csv" (Some ["Filename"; "duration_sec"])
    [wav "a.wav" "1.2"; wav "b.wav" "2.0"].

Definition target_cba : csv_file :=
  CsvFile "combined.csv" (Some ["Filename"; "duration_sec"])
    [wav "c.wav" "0.7"; wav "b.wav" "2.0"; wav "a.wav" "1.2"].

Definition reference_aab : csv_file :=
  CsvFile "metadata.csv" (Some ["Filename"; "duration_sec"])
    [wav "a.wav" "1.2"; wav "a.wav" "1.2"; wav "b.wav" "2.0"].

Definition target_ab : csv_file :=
  CsvFile "combined.csv" (Some ["Filename"; "duration_sec"])
    [wav "a.wav" "1.2"; wav "b.wav" "2.0"].

Definition metadata_repeated : csv_file :=
  CsvFile "metadata.csv" (Some ["Filename"; "duration_sec"])
    [wav "a.wav" "1.2"; wav "b.wav" "2.0"; wav "a.wav" "3.4"].

Definition transcript (filename text : string) : Row :=
  {[ "Filename" := filename; "Transcription" := text ]}.

Definition transcripts_ba : csv_file :=
  CsvFile "combined_transcriptions.csv" (Some ["Filename"; "Transcription"])
    [transcript "b.wav" "hi"; transcript "a.wav" "bye"].

Definition metadata_ab : csv_file :=
  CsvFile "metadata.csv" (Some ["Filename"; "duration_sec"])
    [wav "a.wav" "1.2"; wav "b.wav" "2.0"].


Definition transcripts_bca : csv_file :=
  CsvFile "combined_transcriptions.csv" (Some ["Filename"; "Transcription"])
    [transcript "b.wav" "hi"; transcript "c.wav" "ok"; transcript "a.wav" "bye"].

Definition transcripts_ab : csv_file :=
  CsvFile "combined_transcriptions.csv" (Some ["Filename"; "Transcription"])
    [transcript "a.wav" "bye"; transcript "b.wav" "hi"].

Definition target_repeated : csv_file :=
  CsvFile "combined.csv" (Some ["Filename"; "duration_sec"])
    [wav "a.wav" "1.2"; wav "b.wav" "2.0"; wav "a.wav" "3.4"].

Definition chunk_folder : list (string * file_content) :=
  [("files/b_louis.csv", Readable [["Filename"; "Transcription"]; ["b1.wav"; "hi"]]);
   ("files/a_maria.csv", Readable []);
   ("files/c_david.csv", Unreadable "Permission denied");
   ("files/d_michael.csv",
    Readable [["file"; "text"]; ["d1.wav"; "bye"]; ["d2.wav"; "ok"]])].


(** An output small enough to stay in the writer's buffer until the run
    ends: reopened during the run, the file is still empty. *)
Definition unflushed (written : list (list string)) : file_content := Readable [].

(** Files whose header lacks the [Filename] column. *)
Definition named (name duration : string) : Row :=
  {[ "name" := name; "duration_sec" := duration ]}.

Definition metadata_without_filename : csv_file :=
  CsvFile "metadata.csv" (Some ["name"; "duration_sec"])
    [named "a.wav" "1.2"; named "b.wav" "2.0"].

Definition target_without_filename : csv_file :=
  CsvFile "combined.csv" (Some ["name"; "duration_sec"])
    [named "a.wav" "1.2"; named "b.wav" "2.0"].

Definition joined_ba : csv_file :=
  CsvFile "joined.csv" (Some ["Filename"; "duration_sec"; "transcript"])
    [joined_row "b.wav" "2.0" "hi"; joined_row "a.wav" "1.2" "bye"].

Definition reordered_ab : csv_file :=
  CsvFile "reordered.csv" (Some ["Filename"; "duration_sec"; "transcript"])
    [joined_row "a.wav" "1.2" "bye"; joined_row "b.wav" "2.0" "hi"].

(** ** Further example files *)

Definition target_c : csv_file :=
  CsvFile "combined.csv" (Some ["Filename"; "duration_sec"]) [wav "c.wav" "0.7"].

Definition target_dcba : csv_file :=
  CsvFile "combined.csv" (Some ["Filename"; "duration_sec"])
    [wav "d.wav" "3.1"; wav "c.wav" "0.7"; wav "b.wav" "2.0"; wav "a.wav" "1.2"].

Definition reordered_abcd : csv_file :=
  CsvFile "out.csv" (Some ["Filename"; "duration_sec"])
    [wav "a.wav" "1.2"; wav "b.wav" "2.0"; wav "c.wav" "0.7"; wav "d.wav" "3.1"].

Definition transcripts_drifted : csv_file :=
  CsvFile "combined_transcriptions.csv" (Some ["Filename"; "Transcription"; "transcript"])
    [{[ "Filename" := "a.wav"; "Transcription" := ""; "transcript" := "bye" ]};
     {[ "Filename" := "b.wav"; "Transcription" := "hi"; "transcript" := "other" ]}].

Definition transcripts_without_filename : csv_file :=
  CsvFile "combined_transcriptions.csv" (Some ["name"; "Transcription"])
    [{[ "name" := "a.wav"; "Transcription" := "bye" ]};
     {[ "name" := "b.wav"; "Transcription" := "hi" ]}].

Definition sorted_rows (column : string) (l : list Row) : list Row :=
  (sort_keyed (decorate column <$> l)).*2.

Definition records_a : list (list string) :=
  [["Filename"; "duration_sec"]; ["a.wav"; "1.2"]; []; ["b.wav"; "2.0"]; ["a.wav"; "3.4"]].

Definition records_b : list (list string) :=
  [["file"; "text"]; ["b.wav"; "hi"]; ["a.wav"; "bye"]].

Definition records_c : list (list string) :=
  [["file"; "text"]; ["c.wav"; "ok"]; ["a.wav"; "bye"]].

(** * Properties *)

(** ** Keys of a row source *)

Lemma rectangular_defines column f :
  rectangular f → has_column column f → defines column (rows f).
Proof.
  unfold rectangular, has_column, defines.
  destruct (fieldnames f) as [headers|]; [|done].
  intros Hrect Hin. eapply Forall_impl; [exact Hrect|].
  intros row Hdom. apply elem_of_dom. rewrite Hdom. by apply elem_of_list_to_set.
Qed.

Lemma keys_of_app column l1 l2 :
  keys_of column (l1 ++ l2) = keys_of column l1 ++ keys_of column l2.
Proof. apply omap_app. Qed.

Lemma keys_of_length column l : defines column l → length (keys_of column l) = length l.
Proof.
  induction 1 as [|row l [k Hk] _ IH]; [done|].
  unfold keys_of in *. cbn. rewrite Hk. cbn. by rewrite IH.
Qed.

Lemma keys_of_Permutation column l1 l2 :
  l1 ≡ₚ l2 → keys_of column l1 ≡ₚ keys_of column l2.
Proof. intros Hp. unfold keys_of. by rewrite Hp. Qed.

Lemma elem_of_keys_of column l k :
  k ∈ keys_of column l ↔ ∃ row : Row, row ∈ l ∧ row !! column = Some k.
Proof. unfold keys_of. apply list_elem_of_omap. Qed.

Lemma filter_key_nil column l k :
  k ∉ keys_of column l → filter (λ row : Row, row !! column = Some k) l = [].
Proof.
  intros Hk. induction l as [|row l IH]; [done|].
  rewrite filter_cons. case_decide as Hrow.
  - exfalso. apply Hk, elem_of_keys_of. exists row. split; [left|done].
  - apply IH. intros Hin. apply Hk. apply elem_of_keys_of in Hin as (r & ? & ?).
    apply elem_of_keys_of. exists r. split; [by right|done].
Qed.

(** ** The loops that collect a column *)

Lemma getitem_Some (row : Row) column cell :
  row !! column = Some cell → getitem row column = Ok cell.
Proof. unfold getitem. by intros ->. Qed.

Lemma getitem_None (row : Row) column :
  row !! column = None → getitem row column = Err (KeyError column).
Proof. unfold getitem. by intros ->. Qed.

Lemma collect_column column (acc : list string) l :
  defines column l →
  for_each (λ acc row, key ← getitem row column; Ok (acc ++ [key])) acc l
  = Ok (acc ++ keys_of column l).
Proof.
  intros Hdef. revert acc.
  induction Hdef as [|row l [k Hk] _ IH]; intros acc; cbn.
  - by rewrite app_nil_r.
  - rewrite (getitem_Some _ _ _ Hk). cbn. rewrite IH.
    unfold keys_of. cbn. rewrite Hk. by rewrite <- app_assoc.
Qed.

Lemma read_reference_order_defined column l :
  defines column l → read_reference_order column l = Ok (keys_of column l).
Proof. intros. unfold read_reference_order. by rewrite collect_column. Qed.

Lemma column_values_defined column l :
  defines column l → column_values column l = Ok (keys_of column l).
Proof. intros. unfold column_values. by rewrite collect_column. Qed.

Lemma collect_column_undefined column (acc : list string) l1 row l2 :
  defines column l1 → row !! column = None →
  for_each (λ acc row, key ← getitem row column; Ok (acc ++ [key])) acc (l1 ++ row :: l2)
  = Err (KeyError column).
Proof.
  intros Hdef Hrow. revert acc.
  induction Hdef as [|r l [k Hk] _ IH]; intros acc.
  - cbn. by rewrite (getitem_None _ _ Hrow).
  - rewrite <- app_comm_cons. cbn [for_each]. rewrite (getitem_Some _ _ _ Hk). apply IH.
Qed.

Lemma read_reference_order_undefined column l1 row l2 :
  defines column l1 → row !! column = None →
  read_reference_order column (l1 ++ row :: l2) = Err (KeyError column).
Proof. apply collect_column_undefined. Qed.

(** ** The key-value loader of reorder_to_match.py *)

Lemma load_rows_dict_from column (acc : gmap string Row) l :
  defines column l →
  ∃ d : gmap string Row,
    for_each (λ (d : gmap string Row) row,
                key ← getitem row column; Ok (<[key := row]> d)) acc l = Ok d
    ∧ ∀ k, d !! k = match last (filter (λ row : Row, row !! column = Some k) l) with
                    | Some row => Some row
                    | None => acc !! k
                    end.
Proof.
  intros Hdef. revert acc.
  induction Hdef as [|row l [key Hkey] _ IH]; intros acc; cbn [for_each].
  - by exists acc.
  - rewrite (getitem_Some _ _ _ Hkey). cbn [mbind result_bind].
    destruct (IH (<[key := row]> acc)) as (d & Hd & Hlook).
    exists d. split; [done|]. intros k. rewrite Hlook, filter_cons.
    case_decide as Hk.
    + assert (key = k) as -> by congruence.
      destruct (filter _ l) as [|r rs] eqn:Hf.
      * cbn. apply lookup_insert_eq.
      * rewrite last_cons_cons. destruct (last (r :: rs)) eqn:Hlast; [done|].
        by apply last_None in Hlast.
    + destruct (last _); [done|]. apply lookup_insert_ne. congruence.
Qed.

Lemma load_rows_dict_defined column l :
  defines column l →
  ∃ d : gmap string Row,
    load_rows_dict column l = Ok d
    ∧ ∀ k, d !! k = last (filter (λ row : Row, row !! column = Some k) l).
Proof.
  intros Hdef. destruct (load_rows_dict_from column ∅ l Hdef) as (d & Hd & Hlook).
  exists d. split; [done|]. intros k. rewrite Hlook. by destruct (last _).
Qed.

Lemma last_filter_elem {A} (P : A → Prop) `{∀ x, Decision (P x)} (l : list A) x :
  last (filter P l) = Some x → x ∈ l ∧ P x.
Proof.
  intros Hlast. apply last_Some in Hlast as [l' Hl'].
  assert (x ∈ filter P l) as Hin by (rewrite Hl'; set_solver).
  by apply list_elem_of_filter in Hin as [? ?].
Qed.

Lemma last_filter_None {A} (P : A → Prop) `{∀ x, Decision (P x)} (l : list A) :
  last (filter P l) = None ↔ Forall (λ x, ¬ P x) l.
Proof.
  rewrite last_None. split.
  - intros Hnil. apply Forall_forall. intros x Hx HP.
    assert (x ∈ filter P l) as Hin by (by apply list_elem_of_filter).
    rewrite Hnil in Hin. by apply not_elem_of_nil in Hin.
  - intros Hall. induction Hall as [|x l Hx _ IH]; [done|].
    rewrite filter_cons. by case_decide.
Qed.

(** Every row stored in the mapping carries the key it is stored under, and
    the keys of the mapping are the keys of the source. *)
Lemma rows_dict_key column l (d : gmap string Row) k row :
  (∀ k, d !! k = last (filter (λ row : Row, row !! column = Some k) l)) →
  d !! k = Some row → row ∈ l ∧ row !! column = Some k.
Proof. intros Hlook Hk. rewrite Hlook in Hk. by apply last_filter_elem in Hk. Qed.

Lemma rows_dict_dom column l (d : gmap string Row) k :
  (∀ k, d !! k = last (filter (λ row : Row, row !! column = Some k) l)) →
  k ∈ dom d ↔ k ∈ keys_of column l.
Proof.
  intros Hlook. rewrite elem_of_dom, Hlook, elem_of_keys_of. split.
  - intros [row Hrow]. apply last_filter_elem in Hrow as [? ?]. eauto.
  - intros (row & Hin & Hk). rewrite <- not_eq_None_Some. intros Hnone.
    apply last_filter_None in Hnone. rewrite Forall_forall in Hnone. naive_solver.
Qed.

(** ** The reorder loop *)

Lemma reorder_loop_from (d : gmap string Row) st order :
  foldl (reorder_step d) st order
  = ReorderState
      (reordered_rows st ++ omap (d !!.) order)
      (missing_count st + length (filter (λ k, d !! k = None) order))
      (warnings st ++ (missing_warning <$> filter (λ k, d !! k = None) order)).
Proof.
  revert st. induction order as [|k order IH]; intros [out n w]; cbn [foldl].
  - cbn. by rewrite !app_nil_r, Nat.add_0_r.
  - rewrite IH, filter_cons. unfold reorder_step. cbn [omap list_omap].
    destruct (d !! k) as [row|] eqn:Hk; cbn.
    + case_decide; [done|]. by rewrite <- app_assoc.
    + case_decide; [|done]. cbn. rewrite <- app_assoc. f_equal. lia.
Qed.

Lemma reorder_loop_spec (d : gmap string Row) order :
  reorder_loop d order
  = ReorderState (omap (d !!.) order)
      (length (filter (λ k, d !! k = None) order))
      (missing_warning <$> filter (λ k, d !! k = None) order).
Proof. unfold reorder_loop. by rewrite reorder_loop_from. Qed.

Lemma extra_rows_from (d : gmap string Row) acc keys :
  Forall (λ k, is_Some (d !! k)) keys →
  for_each (λ acc key, match d !! key with
                       | Some row => Ok (acc ++ [row])
                       | None => Err (KeyError key)
                       end) acc keys
  = Ok (acc ++ omap (d !!.) keys).
Proof.
  intros Hall. revert acc.
  induction Hall as [|k keys [row Hk] _ IH]; intros acc; cbn [for_each].
  - cbn. by rewrite app_nil_r.
  - rewrite Hk. cbn [mbind result_bind]. rewrite IH. cbn. rewrite Hk.
    by rewrite <- app_assoc.
Qed.

Lemma extra_rows_spec (d : gmap string Row) keys :
  Forall (λ k, is_Some (d !! k)) keys → extra_rows d keys = Ok (omap (d !!.) keys).
Proof. intros. unfold extra_rows. by rewrite extra_rows_from. Qed.

(** Rows looked up under keys of the mapping carry these keys. *)
Lemma keys_of_lookups column l (d : gmap string Row) keys :
  (∀ k, d !! k = last (filter (λ row : Row, row !! column = Some k) l)) →
  keys_of column (omap (d !!.) keys) = filter (λ k, k ∈ keys_of column l) keys.
Proof.
  intros Hlook. induction keys as [|k keys IH]; [done|].
  rewrite filter_cons. cbn. destruct (d !! k) as [row|] eqn:Hk.
  - destruct (rows_dict_key _ _ _ _ _ Hlook Hk) as [Hin Hrow].
    rewrite decide_True by (apply elem_of_keys_of; eauto).
    unfold keys_of in *. cbn. rewrite Hrow. cbn. by rewrite IH.
  - rewrite decide_False; [done|].
    rewrite <- (rows_dict_dom _ _ _ _ Hlook). by apply not_elem_of_dom.
Qed.

(** With pairwise distinct keys, the row stored under a key is the only row
    of the source with that key, and looking the keys up in row order gives
    the rows back. *)
Lemma keys_of_cons column (row : Row) l :
  keys_of column (row :: l) = option_list (row !! column) ++ keys_of column l.
Proof. unfold keys_of. cbn. by destruct (row !! column). Qed.

Lemma last_filter_unique column l (row : Row) k :
  NoDup (keys_of column l) → row ∈ l → row !! column = Some k →
  last (filter (λ row : Row, row !! column = Some k) l) = Some row.
Proof.
  induction l as [|r l IH]; [by intros _ ?%not_elem_of_nil|].
  rewrite keys_of_cons, filter_cons. intros Hnd Hin Hrow.
  assert (NoDup (keys_of column l)) as Hnd' by (by apply NoDup_app in Hnd as (_ & _ & ?)).
  case_decide as Hr.
  - rewrite Hr in Hnd. cbn in Hnd. apply NoDup_cons in Hnd as [Hfresh _].
    rewrite filter_key_nil by done. cbn. f_equal.
    apply elem_of_cons in Hin as [->|Hin]; [done|].
    exfalso. apply Hfresh, elem_of_keys_of. eauto.
  - apply elem_of_cons in Hin as [->|Hin]; [done|]. by apply IH.
Qed.

Lemma lookups_NoDup column l (d : gmap string Row) :
  defines column l → NoDup (keys_of column l) →
  (∀ k, d !! k = last (filter (λ row : Row, row !! column = Some k) l)) →
  omap (d !!.) (keys_of column l) = l.
Proof.
  intros Hdef Hnd Hlook.
  assert (∀ l', l' ⊆ l → omap (d !!.) (keys_of column l') = l') as Hsub.
  { induction l' as [|row l' IH]; [done|]. intros Hincl.
    assert (row ∈ l) as Hin by (apply Hincl; left).
    unfold defines in Hdef. rewrite Forall_forall in Hdef.
    destruct (Hdef row Hin) as [k Hk].
    rewrite keys_of_cons, Hk. cbn.
    rewrite Hlook, (last_filter_unique _ _ row) by done.
    f_equal. apply IH. intros x Hx. apply Hincl. by right. }
  by apply Hsub.
Qed.

(** ** Runs of reorder_to_match on files that have the match column *)

Section reorder_runs.
Variable set_iter : gset string → list string.
Variables reference_file file_to_reorder : csv_file.
Variables output_file match_column : string.
Hypothesis reference_rectangular : rectangular reference_file.
Hypothesis target_rectangular : rectangular file_to_reorder.
Hypothesis reference_has_column : has_column match_column reference_file.
Hypothesis target_has_column : has_column match_column file_to_reorder.

Let order := keys_of match_column (rows reference_file).

Lemma reorder_to_match_run :
  ∃ (d : gmap string Row) headers,
    fieldnames file_to_reorder = Some headers
    ∧ (∀ k, d !! k = last (filter (λ row : Row, row !! match_column = Some k)
                                  (rows file_to_reorder)))
    ∧ ∀ appended,
        (if bool_decide (dom d ∖ list_to_set order = ∅) then Ok []
         else extra_rows d (set_iter (dom d ∖ list_to_set order))) = Ok appended →
        ∃ console,
          reorder_to_match set_iter reference_file file_to_reorder output_file match_column
          = Done console
              (ReorderReport order d (dom d ∖ list_to_set order)
                 (length (filter (λ k, d !! k = None) order))
                 (CsvFile output_file (Some headers) (omap (d !!.) order ++ appended))).
Proof.
  pose proof (rectangular_defines _ _ reference_rectangular reference_has_column) as Href.
  pose proof (rectangular_defines _ _ target_rectangular target_has_column) as Htgt.
  destruct (load_rows_dict_defined _ _ Htgt) as (d & Hload & Hlook).
  unfold has_column in target_has_column.
  destruct (fieldnames file_to_reorder) as [headers|] eqn:Hheaders; [|done].
  exists d, headers. split; [done|]. split; [done|].
  intros appended Happended. unfold reorder_to_match.
  rewrite (read_reference_order_defined _ _ Href), Hheaders.
  rewrite bool_decide_true by done. rewrite Hload.
  fold order. rewrite Happended, reorder_loop_spec. cbn. eauto.
Qed.

(** When the extra keys are iterated one by one, the run completes and
    appends their rows. *)
Lemma reorder_to_match_done :
  (∀ X, set_iter X ≡ₚ elements X) →
  ∃ (d : gmap string Row) headers console,
    fieldnames file_to_reorder = Some headers
    ∧ (∀ k, d !! k = last (filter (λ row : Row, row !! match_column = Some k)
                                  (rows file_to_reorder)))
    ∧ reorder_to_match set_iter reference_file file_to_reorder output_file match_column
      = Done console
          (ReorderReport order d (dom d ∖ list_to_set order)
             (length (filter (λ k, d !! k = None) order))
             (CsvFile output_file (Some headers)
                (omap (d !!.) order
                 ++ omap (d !!.) (set_iter (dom d ∖ list_to_set order))))).
Proof.
  intros Hiter. destruct reorder_to_match_run as (d & headers & Hh & Hlook & Hrun).
  destruct (Hrun (omap (d !!.) (set_iter (dom d ∖ list_to_set order)))) as [console Hdone].
  - case_bool_decide as Hextra.
    + rewrite Hextra. specialize (Hiter ∅). rewrite elements_empty in Hiter.
      apply Permutation_nil_r in Hiter. by rewrite Hiter.
    + apply extra_rows_spec, Forall_forall. intros k Hk.
      rewrite Hiter, elem_of_elements, elem_of_difference in Hk.
      apply elem_of_dom, Hk.
  - by exists d, headers, console.
Qed.
End reorder_runs.

Lemma length_lookups (d : gmap string Row) keys :
  length (omap (d !!.) keys) + length (filter (λ k, d !! k = None) keys) = length keys.
Proof.
  induction keys as [|k keys IH]; [done|].
  rewrite filter_cons. cbn. destruct (d !! k); cbn.
  - rewrite decide_False by done. lia.
  - rewrite decide_True by done. cbn. lia.
Qed.

Lemma filter_all {A} (P : A → Prop) `{∀ x, Decision (P x)} (l : list A) :
  Forall P l → filter P l = l.
Proof.
  induction 1 as [|x l Hx _ IH]; [done|].
  by rewrite filter_cons, decide_True, IH.
Qed.

Lemma filter_none {A} (P : A → Prop) `{∀ x, Decision (P x)} (l : list A) :
  Forall (λ x, ¬ P x) l → filter P l = [].
Proof.
  induction 1 as [|x l Hx _ IH]; [done|].
  by rewrite filter_cons, decide_False.
Qed.

Lemma reorder_shorter_example :
  ∃ console report,
    reorder_to_match elements two_key_reference one_key_target "out.csv" "Filename"
    = Done console report
    ∧ missing report = 1
    ∧ rows (output report) = [wav "b.wav" "2.0"]
    ∧ length (rows (output report)) < length (rows two_key_reference).
Proof.
  eexists _, _. split; [vm_compute; reflexivity|].
  split; [vm_compute; reflexivity|]. split; [vm_compute; reflexivity|].
  vm_compute. lia.
Qed.

(** ** C1: reordering against a reference *)

(** C1. On files that have the match column, [reorder_to_match] completes
    and its output starts with the rows of the reference keys that the
    target has, in reference order; every reference key absent from the
    target is counted in the missing count and contributes no row, so that
    the output (which can be shorter than the reference) has
    [length reference - missing + extra] rows.  If moreover the keys of
    either file are pairwise distinct and every reference key is a target
    key, the output is a permutation of the target's rows, of the same
    length, whose leading rows carry the reference key sequence. *)
Theorem reorder_follows_reference
    (set_iter : gset string → list string)
    (reference_file file_to_reorder : csv_file) (output_file match_column : string) :
  (∀ X, set_iter X ≡ₚ elements X) →
  rectangular reference_file → rectangular file_to_reorder →
  has_column match_column reference_file → has_column match_column file_to_reorder →
  let ref_keys := keys_of match_column (rows reference_file) in
  let target_keys := keys_of match_column (rows file_to_reorder) in
  (∃ console report,
    reorder_to_match set_iter reference_file file_to_reorder output_file match_column
    = Done console report
    ∧ missing report = length (filter (λ k, k ∉ target_keys) ref_keys)
    ∧ extra_keys report = list_to_set target_keys ∖ list_to_set ref_keys
    ∧ (∃ matched_rows appended,
         rows (output report) = matched_rows ++ appended
         ∧ keys_of match_column matched_rows = filter (λ k, k ∈ target_keys) ref_keys
         ∧ length matched_rows + missing report = length ref_keys
         ∧ keys_of match_column appended ≡ₚ elements (extra_keys report)
         ∧ length appended = size (extra_keys report))
    ∧ (NoDup ref_keys → NoDup target_keys → ref_keys ⊆ target_keys →
         rows (output report) ≡ₚ rows file_to_reorder
         ∧ length (rows (output report)) = length (rows file_to_reorder)
         ∧ missing report = 0
         ∧ keys_of match_column (take (length ref_keys) (rows (output report))) = ref_keys))
  ∧ (∃ reference_file' file_to_reorder' console report,
       reorder_to_match elements reference_file' file_to_reorder' output_file "Filename"
       = Done console report
       ∧ 0 < missing report
       ∧ length (rows (output report)) < length (rows reference_file')).
Proof.
  intros Hiter Hrect_ref Hrect_tgt Hcol_ref Hcol_tgt ref_keys target_keys.
  split; cycle 1.
  { exists two_key_reference, one_key_target. eexists _, _.
    split; [vm_compute; reflexivity|]. split; vm_compute; lia. }
  pose proof (rectangular_defines _ _ Hrect_tgt Hcol_tgt) as Hdef.
  destruct (reorder_to_match_done set_iter _ _ output_file _
              Hrect_ref Hrect_tgt Hcol_ref Hcol_tgt Hiter)
    as (d & headers & console & Hheaders & Hlook & Hrun).
  fold ref_keys in Hrun.
  assert (∀ k, k ∈ dom d ↔ k ∈ target_keys) as Hdom
    by (intros k; by apply rows_dict_dom).
  assert (∀ k, d !! k = None ↔ k ∉ target_keys) as Hnone
    by (intros k; by rewrite <- Hdom, not_elem_of_dom).
  set (extra := dom d ∖ list_to_set ref_keys) in *.
  assert (extra = list_to_set target_keys ∖ list_to_set ref_keys) as Hextra.
  { apply set_eq. intros k. unfold extra.
    rewrite !elem_of_difference, Hdom, !elem_of_list_to_set. done. }
  assert (keys_of match_column (omap (d !!.) (set_iter extra)) = set_iter extra) as Hkeys.
  { rewrite (keys_of_lookups _ _ _ _ Hlook). apply filter_all, Forall_forall.
    intros k Hk. rewrite Hiter, elem_of_elements in Hk. apply Hdom.
    unfold extra in Hk. by apply elem_of_difference in Hk as [? _]. }
  exists console, (ReorderReport ref_keys d extra
                     (length (filter (λ k, d !! k = None) ref_keys))
                     (CsvFile output_file (Some headers)
                        (omap (d !!.) ref_keys ++ omap (d !!.) (set_iter extra)))).
  split; [exact Hrun|]. cbn [missing extra_keys output rows].
  split; [by rewrite (list_filter_iff _ _ _ Hnone)|].
  split; [done|].
  split.
  { exists (omap (d !!.) ref_keys), (omap (d !!.) (set_iter extra)).
    split; [done|]. split; [by apply keys_of_lookups|].
    split; [apply length_lookups|]. split; [by rewrite Hkeys|].
    rewrite <- (keys_of_length match_column).
    - by rewrite Hkeys, Hiter.
    - apply Forall_forall. intros row (k & _ & Hk)%list_elem_of_omap.
      apply (rows_dict_key _ _ _ _ _ Hlook) in Hk as [_ Hk]. by exists k. }
  intros Hnd_ref Hnd_tgt Hsub.
  assert (filter (λ k, d !! k = None) ref_keys = []) as Hmissing.
  { apply filter_none, Forall_forall. intros k Hk. rewrite Hnone. intros Hk'.
    apply Hk'. by apply Hsub. }
  assert (omap (d !!.) ref_keys ++ omap (d !!.) (set_iter extra) ≡ₚ rows file_to_reorder)
    as Hperm.
  { rewrite <- omap_app.
    transitivity (omap (d !!.) target_keys);
      [|unfold target_keys; by rewrite (lookups_NoDup match_column _ d)].
    apply omap_Permutation. apply NoDup_Permutation; [|done|].
    - apply NoDup_app. split; [done|]. split.
      + intros k Hk. rewrite Hiter, elem_of_elements. unfold extra.
        rewrite elem_of_difference, elem_of_list_to_set. tauto.
      + rewrite Hiter. apply NoDup_elements.
    - intros k. rewrite elem_of_app, Hiter, elem_of_elements. unfold extra.
      rewrite elem_of_difference, Hdom, elem_of_list_to_set.
      destruct (decide (k ∈ ref_keys)); [|tauto]. split; [|tauto]. intros _. by apply Hsub. }
  split; [done|]. split; [by rewrite Hperm|]. split; [by rewrite Hmissing|].
  pose proof (length_lookups d ref_keys) as Hlen. rewrite Hmissing in Hlen. cbn in Hlen.
  rewrite take_app_length' by lia.
  rewrite (keys_of_lookups _ _ _ _ Hlook). apply filter_all, Forall_forall.
  intros k Hk. by apply Hsub.
Qed.

Lemma reorder_follows_reference_witness :
  ∃ console report,
    reorder_to_match elements reference_ab target_cba "out.csv" "Filename"
    = Done console report
    ∧ rows (output report) ≡ₚ rows target_cba
    ∧ keys_of "Filename" (take 2 (rows (output report))) = ["a.wav"; "b.wav"].
Proof.
  destruct (reorder_follows_reference elements reference_ab target_cba "out.csv" "Filename")
    as [(console & report & Hrun & _ & _ & _ & Hperm) _];
    [done | compute_done | compute_done | compute_done | compute_done |].
  exists console, report. split; [exact Hrun|].
  destruct Hperm as (Hperm & _ & _ & Hkeys); [compute_done | compute_done | compute_done |].
  split; [exact Hperm | exact Hkeys].
Defined.

(** ** C7: reordering a file that already agrees with the reference *)

(** C7. If the reference key sequence equals the target key sequence and
    has no duplicates, [reorder_to_match] writes the target's rows
    unchanged, in the target's order and under the target's header; nothing
    is missing and nothing is appended. *)
Theorem reorder_matching_order_is_identity
    (set_iter : gset string → list string)
    (reference_file file_to_reorder : csv_file) (output_file match_column : string) :
  rectangular reference_file → rectangular file_to_reorder →
  has_column match_column reference_file → has_column match_column file_to_reorder →
  keys_of match_column (rows reference_file) = keys_of match_column (rows file_to_reorder) →
  NoDup (keys_of match_column (rows file_to_reorder)) →
  ∃ console report,
    reorder_to_match set_iter reference_file file_to_reorder output_file match_column
    = Done console report
    ∧ rows (output report) = rows file_to_reorder
    ∧ fieldnames (output report) = fieldnames file_to_reorder
    ∧ missing report = 0
    ∧ extra_keys report = ∅.
Proof.
  intros Hrect_ref Hrect_tgt Hcol_ref Hcol_tgt Hkeys Hnd.
  pose proof (rectangular_defines _ _ Hrect_tgt Hcol_tgt) as Hdef.
  destruct (reorder_to_match_run set_iter _ _ output_file _
              Hrect_ref Hrect_tgt Hcol_ref Hcol_tgt)
    as (d & headers & Hheaders & Hlook & Hrun).
  rewrite Hkeys in Hrun.
  assert (dom d ∖ list_to_set (keys_of match_column (rows file_to_reorder)) = ∅) as Hextra.
  { apply set_eq. intros k.
    rewrite elem_of_difference, (rows_dict_dom _ _ _ _ Hlook), elem_of_list_to_set.
    rewrite elem_of_empty. tauto. }
  destruct (Hrun []) as [console Hdone]; [by rewrite bool_decide_true|].
  eexists _, _. split; [exact Hdone|]. cbn [output rows fieldnames missing extra_keys].
  rewrite app_nil_r, (lookups_NoDup _ _ _ Hdef Hnd Hlook).
  split; [done|]. split; [done|]. split; [|done].
  rewrite filter_none; [done|]. apply Forall_forall. intros k Hk.
  rewrite <- not_elem_of_dom, (rows_dict_dom _ _ _ _ Hlook). tauto.
Qed.

Lemma reorder_matching_order_is_identity_witness :
  ∃ console report,
    reorder_to_match elements target_ab target_ab "out.csv" "Filename" = Done console report
    ∧ rows (output report) = rows target_ab.
Proof.
  destruct (reorder_matching_order_is_identity elements target_ab target_ab
              "out.csv" "Filename")
    as (console & report & Hrun & Hrows & _);
    [compute_done | compute_done | compute_done | compute_done | reflexivity
    | compute_done |].
  exists console, report. split; [exact Hrun | exact Hrows].
Defined.

(** ** C10: duplicate keys in the reference *)

Lemma count_lookups (d : gmap string Row) column key row keys :
  (∀ k r, d !! k = Some r → r !! column = Some k) →
  d !! key = Some row →
  length (filter (λ r, r = row) (omap (d !!.) keys))
  = length (filter (λ k, k = key) keys).
Proof.
  intros Hkey Hrow. induction keys as [|k keys IH]; [done|].
  rewrite (filter_cons _ k). cbn [omap list_omap].
  destruct (d !! k) as [r|] eqn:Hk.
  - rewrite filter_cons. destruct (decide (k = key)) as [->|Hne].
    + rewrite decide_True by congruence. cbn. by rewrite IH.
    + rewrite decide_False; [done|]. intros ->.
      apply Hkey in Hk, Hrow. congruence.
  - rewrite decide_False; [done|]. intros ->. congruence.
Qed.

(** C10. On files that have the match column, the target row stored under
    a reference key (the last target row with that key) occurs in the output
    as many times as the key occurs in the reference; so with a key repeated
    in the reference the output can be longer than the target, and is then
    neither a sub-multiset nor a permutation of the target's rows. *)
Theorem reorder_repeats_duplicated_reference_keys
    (set_iter : gset string → list string)
    (reference_file file_to_reorder : csv_file) (output_file match_column : string) :
  (∀ X, set_iter X ≡ₚ elements X) →
  rectangular reference_file → rectangular file_to_reorder →
  has_column match_column reference_file → has_column match_column file_to_reorder →
  (∃ console report,
     reorder_to_match set_iter reference_file file_to_reorder output_file match_column
     = Done console report
     ∧ ∀ key row,
         key ∈ keys_of match_column (rows reference_file) →
         last (filter (λ r : Row, r !! match_column = Some key) (rows file_to_reorder))
         = Some row →
         length (filter (λ r, r = row) (rows (output report)))
         = length (filter (λ k, k = key) (keys_of match_column (rows reference_file))))
  ∧ (∃ console report,
       reorder_to_match elements reference_aab target_ab output_file "Filename"
       = Done console report
       ∧ rows (output report) = [wav "a.wav" "1.2"; wav "a.wav" "1.2"; wav "b.wav" "2.0"]
       ∧ length (rows target_ab) < length (rows (output report))
       ∧ ¬ rows (output report) ⊆+ rows target_ab
       ∧ ¬ rows (output report) ≡ₚ rows target_ab).
Proof.
  intros Hiter Hrect_ref Hrect_tgt Hcol_ref Hcol_tgt. split; cycle 1.
  { eexists _, _. split; [by vm_compute|]. cbn [output rows].
    split; [done|]. split; [cbn; lia|].
    split; [intros Hsub%submseteq_length|intros Hperm%Permutation_length];
      cbn in *; lia. }
  destruct (reorder_to_match_done set_iter _ _ output_file _
              Hrect_ref Hrect_tgt Hcol_ref Hcol_tgt Hiter)
    as (d & headers & console & Hheaders & Hlook & Hrun).
  eexists _, _. split; [exact Hrun|]. cbn [output rows].
  intros key row Hin Hlast. rewrite <- Hlook in Hlast.
  assert (∀ k r, d !! k = Some r → r !! match_column = Some k) as Hkey
    by (intros k r Hk; by apply (rows_dict_key _ _ _ _ _ Hlook) in Hk as [_ ?]).
  rewrite filter_app, length_app, (count_lookups _ _ _ _ _ Hkey Hlast).
  rewrite (count_lookups _ _ _ _ _ Hkey Hlast), (filter_none _ (set_iter _)); [cbn; lia|].
  apply Forall_forall. intros k Hk ->.
  rewrite Hiter, elem_of_elements, elem_of_difference, elem_of_list_to_set in Hk. tauto.
Qed.

Lemma reorder_repeats_duplicated_reference_keys_witness :
  ∃ console report,
    reorder_to_match elements reference_aab target_ab "out.csv" "Filename"
    = Done console report
    ∧ length (filter (λ r, r = wav "a.wav" "1.2") (rows (output report))) = 2.
Proof.
  destruct (reorder_repeats_duplicated_reference_keys elements reference_aab target_ab
              "out.csv" "Filename")
    as [(console & report & Hrun & Hcount) _];
    [done | compute_done | compute_done | compute_done | compute_done |].
  exists console, report. split; [exact Hrun|].
  rewrite (Hcount "a.wav" (wav "a.wav" "1.2")); [reflexivity | compute_done | compute_done].
Defined.

(** ** The key-value loader of add_durations.py *)

Lemma load_duration_map_from (acc : gmap string string) l :
  defines "Filename" l → defines "duration_sec" l →
  ∃ d : gmap string string,
    for_each (λ (d : gmap string string) row,
                filename ← getitem row "Filename";
                duration ← getitem row "duration_sec";
                Ok (<[filename := duration]> d)) acc l = Ok d
    ∧ ∀ k, d !! k = match last (filter (λ row : Row, row !! "Filename" = Some k) l) with
                    | Some row => row !! "duration_sec"
                    | None => acc !! k
                    end.
Proof.
  intros Hdef Hdur. revert acc.
  induction Hdef as [|row l [key Hkey] _ IH]; intros acc; cbn [for_each].
  - by exists acc.
  - apply Forall_cons in Hdur as [[duration Hduration] Hdur].
    rewrite (getitem_Some _ _ _ Hkey). cbn [mbind result_bind].
    rewrite (getitem_Some _ _ _ Hduration). cbn [mbind result_bind].
    destruct (IH Hdur (<[key := duration]> acc)) as (d & Hd & Hlook).
    exists d. split; [done|]. intros k. rewrite Hlook, filter_cons.
    case_decide as Hk.
    + assert (key = k) as -> by congruence.
      destruct (filter _ l) as [|r rs] eqn:Hf.
      * cbn. by rewrite lookup_insert_eq.
      * rewrite last_cons_cons. destruct (last (r :: rs)) eqn:Hlast; [done|].
        by apply last_None in Hlast.
    + destruct (last _); [done|]. apply lookup_insert_ne. congruence.
Qed.

Lemma load_duration_map_defined l :
  defines "Filename" l → defines "duration_sec" l →
  ∃ d : gmap string string,
    load_duration_map l = Ok d
    ∧ ∀ k, d !! k = last (filter (λ row : Row, row !! "Filename" = Some k) l)
                    ≫= (.!! "duration_sec").
Proof.
  intros Hdef Hdur.
  destruct (load_duration_map_from ∅ l Hdef Hdur) as (d & Hd & Hlook).
  exists d. split; [done|]. intros k. rewrite Hlook. by destruct (last _).
Qed.

(** ** Dropping overridden rows *)

Lemma last_wins_sublist column l : last_wins column l `sublist_of` l.
Proof.
  induction l as [|row l IH]; [done|]. cbn. case_bool_decide.
  - by apply sublist_cons.
  - by apply sublist_skip.
Qed.

Lemma last_wins_defines column column' l :
  defines column' l → defines column' (last_wins column l).
Proof.
  unfold defines. rewrite !Forall_forall. intros Hdef row Hrow.
  eapply Hdef, elem_of_sublist; [done|]. apply last_wins_sublist.
Qed.

Lemma last_filter_last_wins column l k :
  last (filter (λ row : Row, row !! column = Some k) (last_wins column l))
  = last (filter (λ row : Row, row !! column = Some k) l).
Proof.
  induction l as [|row l IH]; [done|]. cbn [last_wins]. case_bool_decide as Hlater.
  - rewrite IH, filter_cons. case_decide as Hrow; [|done].
    rewrite Hrow in Hlater. apply list_elem_of_fmap in Hlater as (r & Hr & Hin).
    symmetry in Hr.
    destruct (filter _ l) as [|r' rs] eqn:Hf; [|by rewrite last_cons_cons].
    assert (r ∈ filter (λ row : Row, row !! column = Some k) l) as Hr'
      by (by apply list_elem_of_filter).
    rewrite Hf in Hr'. by apply not_elem_of_nil in Hr'.
  - rewrite !filter_cons. case_decide as Hrow; [|done].
    rewrite Hrow in Hlater.
    assert (∀ l', l' `sublist_of` l →
                  filter (λ row : Row, row !! column = Some k) l' = []) as Hnil.
    { intros l' Hsub. apply filter_none, Forall_forall. intros r Hr Hk.
      apply Hlater, list_elem_of_fmap. exists r. split; [done|].
      by eapply elem_of_sublist. }
    by rewrite !Hnil by (done || apply last_wins_sublist).
Qed.

Lemma load_rows_dict_last_wins column l :
  defines column l → load_rows_dict column (last_wins column l) = load_rows_dict column l.
Proof.
  intros Hdef.
  destruct (load_rows_dict_defined _ _ Hdef) as (d & -> & Hlook).
  destruct (load_rows_dict_defined _ _ (last_wins_defines column _ _ Hdef))
    as (d' & -> & Hlook').
  f_equal. apply map_eq. intros k. by rewrite Hlook, Hlook', last_filter_last_wins.
Qed.

Lemma load_duration_map_last_wins l :
  defines "Filename" l → defines "duration_sec" l →
  load_duration_map (last_wins "Filename" l) = load_duration_map l.
Proof.
  intros Hdef Hdur.
  destruct (load_duration_map_defined _ Hdef Hdur) as (d & -> & Hlook).
  destruct (load_duration_map_defined _ (last_wins_defines "Filename" _ _ Hdef)
              (last_wins_defines "Filename" _ _ Hdur)) as (d' & -> & Hlook').
  f_equal. apply map_eq. intros k. by rewrite Hlook, Hlook', last_filter_last_wins.
Qed.

(** ** The join loop *)

Lemma join_step_defined (d : gmap string string) st (row : Row) :
  is_Some (row !! "Filename") →
  join_step d st row
  = Ok (if bool_decide (looked_up d row = "")
        then JoinState (out_rows st ++ [join_row d row]) (S (rows_processed st))
               (rows_matched st) (S (rows_unmatched st))
               (join_warnings st ++ [no_duration_warning (filename_of row)])
        else JoinState (out_rows st ++ [join_row d row]) (S (rows_processed st))
               (S (rows_matched st)) (rows_unmatched st) (join_warnings st)).
Proof.
  intros [filename Hrow]. unfold join_step, join_row, looked_up, filename_of.
  rewrite (getitem_Some _ _ _ Hrow), Hrow. cbn.
  destruct (bool_decide (default "" (d !! filename) = "")); reflexivity.
Qed.

Lemma join_loop_from (d : gmap string string) st l :
  defines "Filename" l →
  for_each (join_step d) st l
  = Ok (JoinState
          (out_rows st ++ (join_row d <$> l))
          (rows_processed st + length l)
          (rows_matched st + length (filter (λ row, looked_up d row ≠ "") l))
          (rows_unmatched st + length (filter (λ row, looked_up d row = "") l))
          (join_warnings st
           ++ ((λ row, no_duration_warning (filename_of row))
                 <$> filter (λ row, looked_up d row = "") l))).
Proof.
  intros Hdef. revert st.
  induction Hdef as [|row l Hrow _ IH]; intros [out n m u w]; cbn [for_each].
  - cbn. by rewrite !app_nil_r, !Nat.add_0_r.
  - rewrite (join_step_defined _ _ _ Hrow). cbn [mbind result_bind].
    rewrite !filter_cons.
    case_bool_decide as Hd; repeat case_decide; try done;
      rewrite IH; cbn; rewrite <- ?app_assoc; do 2 f_equal; lia.
Qed.

Lemma join_loop_spec (d : gmap string string) l :
  defines "Filename" l →
  join_loop d l
  = Ok (JoinState
          (join_row d <$> l) (length l)
          (length (filter (λ row, looked_up d row ≠ "") l))
          (length (filter (λ row, looked_up d row = "") l))
          ((λ row, no_duration_warning (filename_of row))
             <$> filter (λ row, looked_up d row = "") l)).
Proof. intros. unfold join_loop. by rewrite join_loop_from. Qed.

(** ** Runs of add_durations on files that have the columns it reads *)

Section join_runs.
Variable samefile : string → string → bool.
Variables metadata_file transcriptions_file : csv_file.
Variable output_file : string.
Hypothesis metadata_rectangular : rectangular metadata_file.
Hypothesis transcriptions_rectangular : rectangular transcriptions_file.
Hypothesis metadata_has_filename : has_column "Filename" metadata_file.
Hypothesis metadata_has_duration : has_column "duration_sec" metadata_file.
Hypothesis transcriptions_have_filename : has_column "Filename" transcriptions_file.
Hypothesis output_is_new : samefile output_file (path transcriptions_file) = false.

Lemma add_durations_done :
  ∃ (d : gmap string string) before after,
    (∀ k, d !! k = last (filter (λ row : Row, row !! "Filename" = Some k)
                                (rows metadata_file))
                   ≫= (.!! "duration_sec"))
    ∧ add_durations samefile metadata_file transcriptions_file output_file
      = Done (before
              ++ ((λ row, no_duration_warning (filename_of row))
                    <$> filter (λ row, looked_up d row = "") (rows transcriptions_file))
              ++ after)
          (JoinReport d
             (length (rows transcriptions_file))
             (length (filter (λ row, looked_up d row ≠ "") (rows transcriptions_file)))
             (length (filter (λ row, looked_up d row = "") (rows transcriptions_file)))
             (CsvFile output_file (Some ["Filename"; "duration_sec"; "transcript"])
                (join_row d <$> rows transcriptions_file))).
Proof.
  pose proof (rectangular_defines _ _ metadata_rectangular metadata_has_filename) as Hm1.
  pose proof (rectangular_defines _ _ metadata_rectangular metadata_has_duration) as Hm2.
  pose proof (rectangular_defines _ _ transcriptions_rectangular
                transcriptions_have_filename) as Ht.
  destruct (load_duration_map_defined _ Hm1 Hm2) as (d & Hload & Hlook).
  unfold add_durations, rows_read.
  rewrite output_is_new, Hload, (join_loop_spec _ _ Ht).
  cbn [out_rows rows_processed rows_matched rows_unmatched join_warnings].
  by eexists d, _, _.
Qed.
End join_runs.

Lemma joined_row_lookup filename duration transcription :
  joined_row filename duration transcription !! "Filename" = Some filename
  ∧ joined_row filename duration transcription !! "duration_sec" = Some duration
  ∧ joined_row filename duration transcription !! "transcript" = Some transcription.
Proof. unfold joined_row. by rewrite !lookup_insert. Qed.

Lemma length_filter_split {A} (P : A → Prop) `{∀ x, Decision (P x)} (l : list A) :
  length (filter (λ x, ¬ P x) l) + length (filter P l) = length l.
Proof.
  induction l as [|x l IH]; [done|].
  rewrite !filter_cons. repeat case_decide; try done; cbn; lia.
Qed.

(** ** C2: one output row per input row *)



(** ** C5: absent keys give an empty duration, found keys their duration *)



(** ** C9: a key found with an empty duration counts as unmatched *)

Lemma looked_up_delete_blank (d : gmap string string) filename (row : Row) :
  d !! filename = Some "" → looked_up (delete filename d) row = looked_up d row.
Proof.
  intros Hblank. unfold looked_up.
  destruct (decide (filename = filename_of row)) as [<-|Hne].
  - by rewrite lookup_delete_eq, Hblank.
  - by rewrite lookup_delete_ne.
Qed.






(** ** C6: the loaders bind a repeated key to its last row *)

Lemma reorder_to_match_last_wins (set_iter : gset string → list string)
    (reference_file file_to_reorder : csv_file) (output_file match_column : string) :
  rectangular file_to_reorder →
  reorder_to_match set_iter reference_file
    (with_rows file_to_reorder (last_wins match_column (rows file_to_reorder)))
    output_file match_column
  = reorder_to_match set_iter reference_file file_to_reorder output_file match_column.
Proof.
  intros Hrect. unfold reorder_to_match, with_rows. cbn [path fieldnames rows].
  destruct (read_reference_order _ _) as [order|e]; [|done].
  destruct (fieldnames file_to_reorder) as [headers|] eqn:Hheaders; [|done].
  case_bool_decide as Hcol; [|done].
  rewrite load_rows_dict_last_wins; [done|].
  apply rectangular_defines; [done|]. unfold has_column. by rewrite Hheaders.
Qed.

Lemma add_durations_last_wins (samefile : string → string → bool)
    (metadata_file transcriptions_file : csv_file) (output_file : string) :
  rectangular metadata_file →
  has_column "Filename" metadata_file → has_column "duration_sec" metadata_file →
  add_durations samefile
    (with_rows metadata_file (last_wins "Filename" (rows metadata_file)))
    transcriptions_file output_file
  = add_durations samefile metadata_file transcriptions_file output_file.
Proof.
  intros Hrect Hm1 Hm2. unfold add_durations, with_rows. cbn [path fieldnames rows].
  rewrite load_duration_map_last_wins; [done| |]; by apply rectangular_defines.
Qed.

(** C6. Loading a source that has the key column never fails, and binds
    every key to the last row of the source that carries it (for the
    duration mapping: to that row's duration).  A repeated key leaves no
    trace: the whole run, console included, is the run on the source from
    which the overridden rows are dropped. *)
Theorem loader_last_occurrence_wins
    (file_to_reorder metadata_file : csv_file) (match_column : string) :
  rectangular file_to_reorder → has_column match_column file_to_reorder →
  rectangular metadata_file →
  has_column "Filename" metadata_file → has_column "duration_sec" metadata_file →
  (∃ d : gmap string Row,
     load_rows_dict match_column (rows file_to_reorder) = Ok d
     ∧ (∀ k, d !! k = last (filter (λ row : Row, row !! match_column = Some k)
                                   (rows file_to_reorder)))
     ∧ ∀ set_iter reference_file output_file console report,
         reorder_to_match set_iter reference_file file_to_reorder output_file match_column
         = Done console report →
         rows_dict report = d)
  ∧ (∀ set_iter reference_file output_file,
       reorder_to_match set_iter reference_file
         (with_rows file_to_reorder (last_wins match_column (rows file_to_reorder)))
         output_file match_column
       = reorder_to_match set_iter reference_file file_to_reorder output_file match_column)
  ∧ (∃ d : gmap string string,
       load_duration_map (rows metadata_file) = Ok d
       ∧ (∀ k, d !! k = last (filter (λ row : Row, row !! "Filename" = Some k)
                                     (rows metadata_file))
                        ≫= (.!! "duration_sec"))
       ∧ ∀ samefile transcriptions_file output_file console report,
           add_durations samefile metadata_file transcriptions_file output_file
           = Done console report →
           duration_map report = d)
  ∧ (∀ samefile transcriptions_file output_file,
       add_durations samefile
         (with_rows metadata_file (last_wins "Filename" (rows metadata_file)))
         transcriptions_file output_file
       = add_durations samefile metadata_file transcriptions_file output_file).
Proof.
  intros Hrect_t Hcol_t Hrect_m Hm1 Hm2.
  split; [|split; [|split]].
  - destruct (load_rows_dict_defined _ _ (rectangular_defines _ _ Hrect_t Hcol_t))
      as (d & Hload & Hlook).
    exists d. split; [done|]. split; [done|].
    intros set_iter reference_file output_file console report.
    unfold reorder_to_match. rewrite Hload.
    destruct (read_reference_order _ _); [|done].
    destruct (fieldnames file_to_reorder); [|done].
    case_bool_decide; [|done].
    destruct (if bool_decide _ then _ else _); [|done].
    by intros [= _ <-].
  - intros. by apply reorder_to_match_last_wins.
  - destruct (load_duration_map_defined _ (rectangular_defines _ _ Hrect_m Hm1)
                (rectangular_defines _ _ Hrect_m Hm2)) as (d & Hload & Hlook).
    exists d. split; [done|]. split; [done|].
    intros samefile transcriptions_file output_file console report.
    unfold add_durations. rewrite Hload.
    destruct (join_loop _ _); [|done]. by intros [= _ <-].
  - intros. by apply add_durations_last_wins.
Qed.

Lemma loader_last_occurrence_wins_witness :
  (∃ d : gmap string Row,
     load_rows_dict "Filename" (rows target_repeated) = Ok d
     ∧ d !! "a.wav" = Some (wav "a.wav" "3.4"))
  ∧ (∃ d : gmap string string,
       load_duration_map (rows metadata_repeated) = Ok d
       ∧ d !! "a.wav" = Some "3.4").
Proof.
  destruct (loader_last_occurrence_wins target_repeated metadata_repeated "Filename")
    as ((d & Hload & Hlook & _) & _ & (d' & Hload' & Hlook' & _) & _);
    [compute_done | compute_done | compute_done | compute_done | compute_done |].
  split.
  - exists d. split; [exact Hload|]. rewrite Hlook. reflexivity.
  - exists d'. split; [exact Hload'|]. rewrite Hlook'. reflexivity.
Defined.

(** ** The stable sort *)

Section sort_keyed.
Context {A : Type}.
Implicit Types (kx : string * A) (l : list (string * A)).

Lemma insert_keyed_Permutation kx l : insert_keyed kx l ≡ₚ kx :: l.
Proof.
  induction l as [|ky l IH]; [done|]. cbn.
  destruct (String.leb kx.1 ky.1); [done|]. by rewrite IH, Permutation_swap.
Qed.

Lemma sort_keyed_Permutation l : sort_keyed l ≡ₚ l.
Proof.
  induction l as [|kx l IH]; [done|]. cbn.
  by rewrite insert_keyed_Permutation, IH.
Qed.

Lemma insert_keyed_sorted kx l :
  StronglySorted String.le l.*1 → StronglySorted String.le (insert_keyed kx l).*1.
Proof.
  induction l as [|ky l IH]; intros Hsorted; cbn.
  - repeat constructor.
  - apply StronglySorted_inv in Hsorted as [Hl Hky].
    destruct (String.leb kx.1 ky.1) eqn:Hle; cbn.
    + assert (String.le kx.1 ky.1) as Hle' by (unfold String.le; by rewrite Hle).
      constructor; [by constructor|]. constructor; [done|].
      eapply Forall_impl; [exact Hky|]. intros k Hk. by etrans.
    + assert (String.le ky.1 kx.1) as Hge.
      { destruct (total String.le kx.1 ky.1) as [Hle'|]; [|done].
        unfold String.le in Hle'. by rewrite Hle in Hle'. }
      constructor; [by apply IH|].
      rewrite insert_keyed_Permutation. cbn. by constructor.
Qed.

Lemma sort_keyed_sorted l : StronglySorted String.le (sort_keyed l).*1.
Proof.
  induction l as [|kx l IH]; cbn; [constructor|]. by apply insert_keyed_sorted.
Qed.

(** Stability: rows with equal keys keep their order. *)
Lemma insert_keyed_stable kx l k :
  filter (λ ky, ky.1 = k) (insert_keyed kx l) = filter (λ ky, ky.1 = k) (kx :: l).
Proof.
  induction l as [|ky l IH]; [done|]. cbn [insert_keyed].
  destruct (String.leb kx.1 ky.1) eqn:Hle; [done|].
  rewrite (filter_cons _ ky), IH, !filter_cons.
  destruct (decide (ky.1 = k)) as [Hky|]; [|done].
  destruct (decide (kx.1 = k)) as [Hkx|]; [|done].
  exfalso. rewrite Hky, Hkx in Hle.
  pose proof (reflexivity (R := String.le) k) as Hrefl.
  unfold String.le in Hrefl. by rewrite Hle in Hrefl.
Qed.

Lemma sort_keyed_stable l k :
  filter (λ ky, ky.1 = k) (sort_keyed l) = filter (λ ky, ky.1 = k) l.
Proof.
  induction l as [|kx l IH]; [done|]. cbn [sort_keyed foldr].
  rewrite insert_keyed_stable, !filter_cons. fold (sort_keyed l). by rewrite IH.
Qed.
End sort_keyed.

Lemma keyed_from column (acc : list (string * Row)) l :
  defines column l →
  for_each (λ acc row, key ← getitem row column; Ok (acc ++ [(key, row)])) acc l
  = Ok (acc ++ (decorate column <$> l)).
Proof.
  intros Hdef. revert acc.
  induction Hdef as [|row l [k Hk] _ IH]; intros acc; cbn [for_each].
  - cbn. by rewrite app_nil_r.
  - rewrite (getitem_Some _ _ _ Hk). cbn [mbind result_bind]. rewrite IH.
    unfold decorate at 2. cbn. rewrite Hk. by rewrite <- app_assoc.
Qed.

Lemma sorted_by_column_defined column l :
  defines column l →
  sorted_by_column column l = Ok ((sort_keyed (decorate column <$> l)).*2).
Proof. intros. unfold sorted_by_column, keyed. by rewrite keyed_from. Qed.

Lemma sorted_rows_Permutation column l :
  (sort_keyed (decorate column <$> l)).*2 ≡ₚ l.
Proof.
  rewrite sort_keyed_Permutation, <- list_fmap_compose.
  by rewrite (list_fmap_ext _ id l), list_fmap_id.
Qed.

Lemma sorted_rows_keys column l :
  defines column l →
  keys_of column (sort_keyed (decorate column <$> l)).*2
  = (sort_keyed (decorate column <$> l)).*1.
Proof.
  intros Hdef.
  assert (Forall (λ p : string * Row, p.2 !! column = Some p.1)
            (sort_keyed (decorate column <$> l))) as Hall.
  { rewrite sort_keyed_Permutation. apply Forall_fmap.
    eapply Forall_impl; [exact Hdef|]. intros row [k Hk]. cbn. by rewrite Hk. }
  induction Hall as [|[k row] pairs Hk _ IH]; [done|].
  cbn [fst snd] in Hk. cbn [fmap list_fmap fst snd].
  by rewrite keys_of_cons, Hk, IH.
Qed.

Lemma sorted_rows_stable column l k :
  defines column l →
  filter (λ row : Row, row !! column = Some k) (sort_keyed (decorate column <$> l)).*2
  = filter (λ row : Row, row !! column = Some k) l.
Proof.
  intros Hdef.
  assert (∀ pairs : list (string * Row),
            Forall (λ p, p.2 !! column = Some p.1) pairs →
            filter (λ row : Row, row !! column = Some k) pairs.*2
            = (filter (λ p, p.1 = k) pairs).*2) as Hfilter.
  { induction 1 as [|[k' row] pairs Hk _ IH]; [done|].
    cbn in Hk. cbn [fmap list_fmap snd]. rewrite !filter_cons, IH. cbn [fst].
    destruct (decide (k' = k)) as [->|Hne].
    - by rewrite decide_True.
    - rewrite decide_False; [done|]. congruence. }
  assert (Forall (λ p : string * Row, p.2 !! column = Some p.1) (decorate column <$> l))
    as Hall.
  { apply Forall_fmap. eapply Forall_impl; [exact Hdef|].
    intros row [k' Hk]. cbn. by rewrite Hk. }
  rewrite Hfilter by (by rewrite sort_keyed_Permutation).
  rewrite sort_keyed_stable, <- Hfilter by done.
  rewrite <- list_fmap_compose. by rewrite (list_fmap_ext _ id l), list_fmap_id.
Qed.

(** ** C8: sort-compare *)

(** C8. On two files that have the sort column, [order_csv_files] completes
    and writes, for either file and under that file's header, its rows
    sorted by the column: the written key sequence is non-decreasing in the
    lexicographic order of strings, the written rows are a permutation of
    the input rows, and rows with equal keys keep their input order. *)
Theorem sorted_output_is_ordered_permutation
    (path_stem path_suffix : string → string)
    (file1 file2 : csv_file) (sort_column output_suffix : string) :
  rectangular file1 → rectangular file2 →
  has_column sort_column file1 → has_column sort_column file2 →
  ∃ console output1 output2,
    order_csv_files path_stem path_suffix file1 file2 sort_column output_suffix
    = Done console (output1, output2)
    ∧ (fieldnames output1 = fieldnames file1
       ∧ rows output1 ≡ₚ rows file1
       ∧ StronglySorted String.le (keys_of sort_column (rows output1))
       ∧ ∀ k, filter (λ row : Row, row !! sort_column = Some k) (rows output1)
              = filter (λ row : Row, row !! sort_column = Some k) (rows file1))
    ∧ (fieldnames output2 = fieldnames file2
       ∧ rows output2 ≡ₚ rows file2
       ∧ StronglySorted String.le (keys_of sort_column (rows output2))
       ∧ ∀ k, filter (λ row : Row, row !! sort_column = Some k) (rows output2)
              = filter (λ row : Row, row !! sort_column = Some k) (rows file2)).
Proof.
  intros Hrect1 Hrect2 Hcol1 Hcol2.
  pose proof (rectangular_defines _ _ Hrect1 Hcol1) as Hdef1.
  pose proof (rectangular_defines _ _ Hrect2 Hcol2) as Hdef2.
  assert (∀ l, defines sort_column l →
               defines sort_column (sort_keyed (decorate sort_column <$> l)).*2) as Hsorted.
  { intros l Hdef. unfold defines. by rewrite sorted_rows_Permutation. }
  unfold order_csv_files, has_column in *.
  destruct (fieldnames file1) as [headers1|]; [|done].
  destruct (fieldnames file2) as [headers2|]; [|done].
  rewrite !bool_decide_true by done.
  rewrite !sorted_by_column_defined by done.
  rewrite !column_values_defined by auto.
  eexists _, _, _. split; [reflexivity|]. cbn [fieldnames rows].
  split; (split; [done|]); (split; [apply sorted_rows_Permutation|]);
    (split; [rewrite sorted_rows_keys by done; apply sort_keyed_sorted|]);
    intros k; by apply sorted_rows_stable.
Qed.

Lemma sorted_output_is_ordered_permutation_witness :
  ∃ console output1 output2,
    order_csv_files id id target_cba transcripts_bca "Filename" "_ordered"
    = Done console (output1, output2)
    ∧ rows output1 ≡ₚ rows target_cba
    ∧ StronglySorted String.le (keys_of "Filename" (rows output2)).
Proof.
  destruct (sorted_output_is_ordered_permutation id id target_cba transcripts_bca
              "Filename" "_ordered")
    as (console & output1 & output2 & Hrun & (_ & Hperm & _) & (_ & _ & Hsorted & _));
    [compute_done | compute_done | compute_done | compute_done |].
  exists console, output1, output2. split; [exact Hrun|]. split; [exact Hperm|exact Hsorted].
Defined.

(** ** The concatenation loops *)

Section concat_loop.
Context {X : Type}.
Variable step : concat_state → X → concat_state.
Variable file_of : X → string * file_content.
Variable listed : X → Prop.
Hypothesis step_skip : ∀ st x,
  listed x → contents (file_of x) = None →
  header_written (step st x) = header_written st
  ∧ written (step st x) = written st
  ∧ rows_written (step st x) = rows_written st.
Hypothesis step_take : ∀ st x header data,
  listed x → contents (file_of x) = Some (header, data) →
  header_written (step st x) = true
  ∧ written (step st x)
    = (if header_written st then written st else written st ++ [header]) ++ data
  ∧ rows_written (step st x) = rows_written st + length data.
Hypothesis step_log : ∀ st x, ∃ lines, concat_log (step st x) = concat_log st ++ lines.

Lemma concat_loop_written st items :
  Forall listed items →
  written (foldl step st items)
  = written st ++ (if header_written st then concat (included (file_of <$> items)).*2
                   else concatenation (file_of <$> items))
  ∧ rows_written (foldl step st items)
    = rows_written st + data_row_count (file_of <$> items).
Proof.
  intros Hlisted. revert st.
  induction Hlisted as [|x items Hx _ IH]; intros st; cbn [foldl].
  - unfold concatenation, data_row_count. cbn.
    destruct (header_written st); by rewrite app_nil_r, Nat.add_0_r.
  - destruct (IH (step st x)) as [-> ->].
    unfold concatenation, data_row_count, included in *. cbn [fmap list_fmap omap list_omap].
    destruct (contents (file_of x)) as [[header data]|] eqn:Hcontents.
    + destruct (step_take st x header data Hx Hcontents) as (-> & -> & ->). cbn.
      destruct (header_written st); rewrite <- ?app_assoc; (split; [done|lia]).
    + destruct (step_skip st x Hx Hcontents) as (-> & -> & ->). done.
Qed.


End concat_loop.

(** One file of either script, read as it was listed. *)
Lemma stitch_file_spec st name content :
  (contents (name, content) = None →
   header_written (stitch_file st name content) = header_written st
   ∧ written (stitch_file st name content) = written st
   ∧ rows_written (stitch_file st name content) = rows_written st)
  ∧ (∀ header data,
       contents (name, content) = Some (header, data) →
       header_written (stitch_file st name content) = true
       ∧ written (stitch_file st name content)
         = (if header_written st then written st else written st ++ [header]) ++ data
       ∧ rows_written (stitch_file st name content) = rows_written st + length data)
  ∧ ∃ lines, concat_log (stitch_file st name content) = concat_log st ++ lines.
Proof.
  unfold contents. cbn [snd].
  destruct content as [e|[|header' data']|[|header' data'] e]; cbn;
    (split; [done|]); (split; [by (done || intros ?? [= -> ->])|]);
    rewrite <- ?app_assoc; eauto.
Qed.








(** ** Runs of the concatenators whose output file is none of the files read *)

Section concat_runs.
Variable samefile : string → string → bool.
Variable reopen : list (list string) → file_content.
Variable output_file : string.

Let listed (file : string * file_content) : Prop := samefile output_file file.1 = false.

Lemma read_file_listed st file :
  samefile output_file file.1 = false → read_file samefile reopen output_file st file = file.2.
Proof. intros Hfile. unfold read_file. by rewrite Hfile. Qed.

Lemma stitch_loop_spec st files :
  Forall listed files →
  written (foldl (stitch_step samefile reopen output_file) st files)
  = written st ++ (if header_written st then concat (included files).*2
                   else concatenation files)
  ∧ rows_written (foldl (stitch_step samefile reopen output_file) st files)
    = rows_written st + data_row_count files.
Proof.
  intros Hlisted.
  pose proof (concat_loop_written (stitch_step samefile reopen output_file) id listed)
    as Hloop.
  specialize (Hloop) with (st := st) (items := files).
  rewrite list_fmap_id in Hloop. apply Hloop; [| |done].
  - intros st' [name content] Hfile Hcontents. unfold stitch_step.
    rewrite read_file_listed by done. by apply stitch_file_spec.
  - intros st' [name content] header data Hfile Hcontents. unfold stitch_step.
    rewrite read_file_listed by done. by apply stitch_file_spec.
Qed.



Variable basename : string → string.



End concat_runs.



(** ** C4: concatenation *)




(** ** C3: a source without the key column *)

(** The guarded loaders: the target of [reorder_to_match] and both files of
    [order_csv_files] report a missing column, with the header's columns,
    and return without writing. *)
Lemma reorder_reports_missing_target_column (set_iter : gset string → list string)
    (reference_file file_to_reorder : csv_file) (output_file match_column : string) headers :
  defines match_column (rows reference_file) →
  fieldnames file_to_reorder = Some headers → match_column ∉ headers →
  ∃ before,
    reorder_to_match set_iter reference_file file_to_reorder output_file match_column
    = Aborted (before
               ++ ["Error: Column '" +:+ match_column +:+ "' not found in "
                     +:+ path file_to_reorder;
                   "Available columns: " +:+ join_comma headers]).
Proof.
  intros Hdef Hheaders Hcol. unfold reorder_to_match.
  rewrite (read_reference_order_defined _ _ Hdef), Hheaders.
  rewrite bool_decide_false by done. eauto.
Qed.

Lemma order_csv_files_reports_missing_column (path_stem path_suffix : string → string)
    (file1 file2 : csv_file) (sort_column output_suffix : string) headers1 headers2 :
  fieldnames file1 = Some headers1 → fieldnames file2 = Some headers2 →
  (sort_column ∉ headers1 →
   ∃ before,
     order_csv_files path_stem path_suffix file1 file2 sort_column output_suffix
     = Aborted (before ++ missing_column_report sort_column (path file1) headers1))
  ∧ (sort_column ∈ headers1 → sort_column ∉ headers2 →
     ∃ before,
       order_csv_files path_stem path_suffix file1 file2 sort_column output_suffix
       = Aborted (before ++ missing_column_report sort_column (path file2) headers2)).
Proof.
  intros Hh1 Hh2. unfold order_csv_files. rewrite Hh1, Hh2. split.
  - intros Hcol. rewrite bool_decide_false by done. eauto.
  - intros Hcol1 Hcol2. rewrite bool_decide_true, bool_decide_false by done. eauto.
Qed.

(** The unguarded loaders: the duration mapping of [add_durations] and the
    reference order of [reorder_to_match] index the first row by the column
    and raise [KeyError]. *)
Lemma add_durations_raises_on_missing_filename (samefile : string → string → bool)
    (metadata_file transcriptions_file : csv_file) (output_file : string) row l :
  rows metadata_file = row :: l → row !! "Filename" = None →
  add_durations samefile metadata_file transcriptions_file output_file
  = Raised (KeyError "Filename").
Proof.
  intros Hrows Hrow. unfold add_durations, load_duration_map. rewrite Hrows.
  cbn [for_each]. by rewrite (getitem_None _ _ Hrow).
Qed.

Lemma reorder_raises_on_missing_reference_column (set_iter : gset string → list string)
    (reference_file file_to_reorder : csv_file) (output_file match_column : string) row l :
  rows reference_file = row :: l → row !! match_column = None →
  reorder_to_match set_iter reference_file file_to_reorder output_file match_column
  = Raised (KeyError match_column).
Proof.
  intros Hrows Hrow. unfold reorder_to_match. rewrite Hrows.
  by rewrite (read_reference_order_undefined _ [] row l) by (done || constructor).
Qed.

(** C3. A key column missing from the schema is reported, with the column
    named and the available columns listed, only where the header is
    checked (the target of [reorder_to_match]); the duration mapping of
    [add_durations] and the reference order of [reorder_to_match] are loaded
    without that check and end in an uncaught [KeyError]. *)
Theorem missing_key_column_outcomes :
  reorder_to_match elements reference_ab target_without_filename "out.csv" "Filename"
  = Aborted ["Reading reference order from metadata.csv...";
             "Found 2 rows in reference file";
             nl +:+ "Reading combined.csv...";
             "Error: Column 'Filename' not found in combined.csv";
             "Available columns: name, duration_sec"]
  ∧ add_durations same_path metadata_without_filename transcripts_ab "out.csv"
    = Raised (KeyError "Filename")
  ∧ reorder_to_match elements metadata_without_filename target_ab "out.csv" "Filename"
    = Raised (KeyError "Filename")
  ∧ ¬ has_column "Filename" metadata_without_filename
  ∧ ∃ console report,
      add_durations same_path (with_rows metadata_without_filename []) transcripts_ab
        "out.csv"
      = Done console report
      ∧ unmatched report = 2.
Proof.
  split; [by vm_compute|]. split; [by vm_compute|]. split; [by vm_compute|].
  split; [compute_done|]. eexists _, _. split; [by vm_compute|]. reflexivity.
Qed.

(** ** The end-to-end example of the specification

    The join writes its rows in the row order of the transcription file
    ([b.wav] first); reordering them against the metadata file gives the
    metadata order, and reordering that result again changes nothing. *)

Example join_then_reorder :
  (∃ console report,
     add_durations same_path metadata_ab transcripts_ba "joined.csv" = Done console report
     ∧ joined report = joined_ba)
  ∧ (∃ console report,
       reorder_to_match elements metadata_ab joined_ba "reordered.csv" "Filename"
       = Done console report
       ∧ output report = reordered_ab)
  ∧ (∃ console report,
       reorder_to_match elements metadata_ab reordered_ab "reordered.csv" "Filename"
       = Done console report
       ∧ output report = reordered_ab).
Proof.
  split; [|split]; eexists _, _; (split; [vm_compute; reflexivity|]);
    vm_compute; reflexivity.
Qed.

(** * Further properties of reorder_to_match.py *)

(** ** What the output is made of *)

Lemma last_wins_keys_NoDup column l : NoDup (keys_of column (last_wins column l)).
Proof.
  induction l as [|row l IH]; [constructor|]. cbn [last_wins].
  case_bool_decide as Hlater; [done|].
  rewrite keys_of_cons. destruct (row !! column) as [k|] eqn:Hk; [|done].
  cbn. constructor; [|done]. intros Hin. apply Hlater.
  apply elem_of_keys_of in Hin as (r & Hr & Hrk).
  apply list_elem_of_fmap. exists r. split; [done|].
  eapply elem_of_sublist; [done|]. apply last_wins_sublist.
Qed.

Lemma last_wins_keys column l k :
  k ∈ keys_of column (last_wins column l) ↔ k ∈ keys_of column l.
Proof.
  rewrite !elem_of_keys_of. split.
  - intros (row & Hin & Hk). exists row. split; [|done].
    eapply elem_of_sublist; [done|]. apply last_wins_sublist.
  - intros (row & Hin & Hk).
    destruct (last (filter (λ r : Row, r !! column = Some k) (last_wins column l)))
      as [r|] eqn:Hlast.
    + apply last_filter_elem in Hlast as [? ?]. eauto.
    + rewrite last_filter_last_wins in Hlast. apply last_filter_None in Hlast.
      rewrite Forall_forall in Hlast. by destruct (Hlast row Hin).
Qed.

Lemma last_wins_NoDup column l :
  defines column l → NoDup (keys_of column l) → last_wins column l = l.
Proof.
  induction 1 as [|row l [k Hk] _ IH]; [done|].
  rewrite keys_of_cons, Hk. cbn. intros [Hfresh Hnd]%NoDup_cons.
  rewrite bool_decide_false, IH; [done..|].
  rewrite Hk. intros (r & Hr & Hin)%list_elem_of_fmap.
  apply Hfresh, elem_of_keys_of. eauto.
Qed.

Lemma omap_lookup_present (d : gmap string Row) (keys : list string) :
  omap (d !!.) keys = omap (d !!.) (filter (λ k, k ∈ dom d) keys).
Proof.
  induction keys as [|k keys IH]; [done|].
  rewrite filter_cons. cbn. destruct (d !! k) as [row|] eqn:Hk.
  - rewrite decide_True by (by apply elem_of_dom). cbn. by rewrite Hk, IH.
  - by rewrite decide_False by (by apply not_elem_of_dom).
Qed.

(** X1. On files that have the match column, [reorder_to_match] completes,
    keeps the target's header, and writes only rows of the target: each
    written row is the last target row carrying its key. *)
Theorem reorder_writes_only_target_rows
    (set_iter : gset string → list string)
    (reference_file file_to_reorder : csv_file) (output_file match_column : string) :
  (∀ X, set_iter X ≡ₚ elements X) →
  rectangular reference_file → rectangular file_to_reorder →
  has_column match_column reference_file → has_column match_column file_to_reorder →
  ∃ console report,
    reorder_to_match set_iter reference_file file_to_reorder output_file match_column
    = Done console report
    ∧ path (output report) = output_file
    ∧ fieldnames (output report) = fieldnames file_to_reorder
    ∧ rectangular (output report)
    ∧ ∀ row, row ∈ rows (output report) →
        row ∈ rows file_to_reorder
        ∧ ∃ k, row !! match_column = Some k
               ∧ last (filter (λ r : Row, r !! match_column = Some k)
                              (rows file_to_reorder)) = Some row.
Proof.
  intros Hiter Hrect_ref Hrect_tgt Hcol_ref Hcol_tgt.
  destruct (reorder_to_match_done set_iter _ _ output_file _
              Hrect_ref Hrect_tgt Hcol_ref Hcol_tgt Hiter)
    as (d & headers & console & Hheaders & Hlook & Hrun).
  eexists _, _. split; [exact Hrun|]. cbn [output path fieldnames rows].
  assert (∀ row,
            row ∈ omap (d !!.) (keys_of match_column (rows reference_file))
                  ++ omap (d !!.)
                       (set_iter (dom d ∖ list_to_set
                                            (keys_of match_column (rows reference_file)))) →
            row ∈ rows file_to_reorder
            ∧ ∃ k, row !! match_column = Some k
                   ∧ last (filter (λ r : Row, r !! match_column = Some k)
                                  (rows file_to_reorder)) = Some row) as Hrows.
  { intros row Hin. rewrite <- omap_app in Hin.
    apply list_elem_of_omap in Hin as (k & _ & Hk).
    destruct (rows_dict_key _ _ _ _ _ Hlook Hk) as [Hin Hrow].
    split; [done|]. exists k. split; [done|]. by rewrite <- Hlook. }
  split; [done|]. split; [done|]. split; [|done].
  unfold rectangular in *. cbn [fieldnames rows]. rewrite Hheaders in Hrect_tgt.
  rewrite Forall_forall in Hrect_tgt. apply Forall_forall.
  intros row Hin. by apply Hrect_tgt, Hrows.
Qed.

Lemma reorder_writes_only_target_rows_witness :
  ∃ console report,
    reorder_to_match elements reference_aab target_repeated "out.csv" "Filename"
    = Done console report
    ∧ ∀ row, row ∈ rows (output report) → row ∈ rows target_repeated.
Proof.
  destruct (reorder_writes_only_target_rows elements reference_aab target_repeated
              "out.csv" "Filename")
    as (console & report & Hrun & _ & _ & _ & Hrows);
    [done | compute_done | compute_done | compute_done | compute_done |].
  exists console, report. split; [exact Hrun|].
  intros row Hin. by destruct (Hrows row Hin).
Defined.

(** X2. If the reference has no repeated key, the output is a permutation
    of the target's rows without the overridden ones (for each key, only the
    last row carrying it), whether or not the reference keys occur in the
    target; a target without repeated keys is permuted as a whole. *)
Theorem reorder_permutes_last_rows
    (set_iter : gset string → list string)
    (reference_file file_to_reorder : csv_file) (output_file match_column : string) :
  (∀ X, set_iter X ≡ₚ elements X) →
  rectangular reference_file → rectangular file_to_reorder →
  has_column match_column reference_file → has_column match_column file_to_reorder →
  NoDup (keys_of match_column (rows reference_file)) →
  ∃ console report,
    reorder_to_match set_iter reference_file file_to_reorder output_file match_column
    = Done console report
    ∧ rows (output report) ≡ₚ last_wins match_column (rows file_to_reorder)
    ∧ NoDup (keys_of match_column (rows (output report)))
    ∧ (NoDup (keys_of match_column (rows file_to_reorder)) →
       rows (output report) ≡ₚ rows file_to_reorder).
Proof.
  intros Hiter Hrect_ref Hrect_tgt Hcol_ref Hcol_tgt Hnd.
  pose proof (rectangular_defines _ _ Hrect_tgt Hcol_tgt) as Hdef.
  destruct (reorder_to_match_done set_iter _ _ output_file _
              Hrect_ref Hrect_tgt Hcol_ref Hcol_tgt Hiter)
    as (d & headers & console & Hheaders & Hlook & Hrun).
  set (ref_keys := keys_of match_column (rows reference_file)) in *.
  set (kept := last_wins match_column (rows file_to_reorder)).
  assert (∀ k, d !! k = last (filter (λ row : Row, row !! match_column = Some k) kept))
    as Hlook' by (intros k; unfold kept; by rewrite last_filter_last_wins).
  assert (∀ k, k ∈ dom d ↔ k ∈ keys_of match_column kept) as Hdom
    by (intros k; by apply rows_dict_dom).
  assert (omap (d !!.) ref_keys ++ omap (d !!.) (set_iter (dom d ∖ list_to_set ref_keys))
          ≡ₚ kept) as Hperm.
  { rewrite (omap_lookup_present d ref_keys), <- omap_app.
    transitivity (omap (d !!.) (keys_of match_column kept)); cycle 1.
    { rewrite (lookups_NoDup match_column kept d);
        [done|by apply last_wins_defines|apply last_wins_keys_NoDup|done]. }
    apply omap_Permutation, NoDup_Permutation.
    - apply NoDup_app. split; [by apply NoDup_filter|]. split.
      + intros k [_ Hk]%list_elem_of_filter.
        rewrite Hiter, elem_of_elements, elem_of_difference, elem_of_list_to_set. tauto.
      + rewrite Hiter. apply NoDup_elements.
    - apply last_wins_keys_NoDup.
    - intros k. rewrite elem_of_app, list_elem_of_filter, Hiter, elem_of_elements.
      rewrite elem_of_difference, elem_of_list_to_set, <- Hdom.
      destruct (decide (k ∈ ref_keys)); tauto. }
  eexists _, _. split; [exact Hrun|]. cbn [output rows].
  split; [done|]. split.
  - rewrite (keys_of_Permutation _ _ _ Hperm). apply last_wins_keys_NoDup.
  - intros Hnd'. rewrite Hperm. unfold kept. by rewrite last_wins_NoDup.
Qed.

Lemma reorder_permutes_last_rows_witness :
  ∃ console report,
    reorder_to_match elements two_key_reference target_repeated "out.csv" "Filename"
    = Done console report
    ∧ rows (output report) ≡ₚ [wav "b.wav" "2.0"; wav "a.wav" "3.4"].
Proof.
  destruct (reorder_permutes_last_rows elements two_key_reference target_repeated
              "out.csv" "Filename")
    as (console & report & Hrun & Hperm & _);
    [done | compute_done | compute_done | compute_done | compute_done | compute_done |].
  exists console, report. split; [exact Hrun|]. exact Hperm.
Defined.

(** ** Reordering twice *)

Lemma last_filter_lookups (d : gmap string Row) column (keys : list string) k :
  (∀ k r, d !! k = Some r → r !! column = Some k) →
  last (filter (λ r : Row, r !! column = Some k) (omap (d !!.) keys))
  = if decide (k ∈ keys) then d !! k else None.
Proof.
  intros Hkey. induction keys as [|k0 keys IH]; [done|].
  cbn [omap list_omap]. destruct (d !! k0) as [r0|] eqn:Hk0.
  - pose proof (Hkey _ _ Hk0) as Hr0. rewrite filter_cons.
    destruct (decide (k0 = k)) as [->|Hne].
    + rewrite decide_True by done. rewrite last_cons, IH.
      rewrite (decide_True (P := k ∈ k :: keys)) by left.
      case_decide; [|done]. by rewrite Hk0.
    + rewrite decide_False by congruence. rewrite IH.
      destruct (decide (k ∈ keys)) as [Hin|Hnin].
      * by rewrite decide_True by (by right).
      * rewrite decide_False; [done|]. intros [?|?]%elem_of_cons; congruence.
  - fold (omap (d !!.) keys). rewrite IH.
    destruct (decide (k ∈ keys)) as [Hin|Hnin].
    + by rewrite decide_True by (by right).
    + destruct (decide (k ∈ k0 :: keys)) as [[->|?]%elem_of_cons|]; done.
Qed.

Lemma length_lookups_present (d : gmap string Row) (keys : list string) :
  Forall (λ k, k ∈ dom d) keys → length (omap (d !!.) keys) = length keys.
Proof.
  induction 1 as [|k keys [row Hk]%elem_of_dom _ IH]; [done|].
  cbn. rewrite Hk. cbn. by rewrite IH.
Qed.

(** X3. Reordering is idempotent up to the order of the appended rows.
    Python fixes no iteration order for a set, so the two runs may go
    through the extra keys in different orders.  Reordering the written
    file again against the same reference rows loads the same mapping and
    finds the same missing count and the same extra keys; it writes the
    same rows in the same order as far as the reference reaches, and after
    them the same appended rows, possibly in another order.  The two
    outputs are equal when there is no extra key, or when both runs iterate
    over the extra keys in the same order. *)
Theorem reorder_is_idempotent
    (set_iter set_iter' : gset string → list string)
    (reference_file file_to_reorder : csv_file)
    (output_file output_file' match_column : string) :
  (∀ X, set_iter X ≡ₚ elements X) → (∀ X, set_iter' X ≡ₚ elements X) →
  rectangular reference_file → rectangular file_to_reorder →
  has_column match_column reference_file → has_column match_column file_to_reorder →
  ∃ console report console' report',
    reorder_to_match set_iter reference_file file_to_reorder output_file match_column
    = Done console report
    ∧ reorder_to_match set_iter' reference_file (output report) output_file' match_column
      = Done console' report'
    ∧ fieldnames (output report') = fieldnames (output report)
    ∧ rows_dict report' = rows_dict report
    ∧ missing report' = missing report
    ∧ extra_keys report' = extra_keys report
    ∧ rows (output report') ≡ₚ rows (output report)
    ∧ (∃ matched appended appended',
         rows (output report) = matched ++ appended
         ∧ rows (output report') = matched ++ appended'
         ∧ appended ≡ₚ appended'
         ∧ length appended = size (extra_keys report))
    ∧ (extra_keys report = ∅ → rows (output report') = rows (output report))
    ∧ (set_iter' (extra_keys report) = set_iter (extra_keys report) →
       rows (output report') = rows (output report)).
Proof.
  intros Hiter Hiter' Hrect_ref Hrect_tgt Hcol_ref Hcol_tgt.
  destruct (reorder_to_match_done set_iter _ _ output_file _
              Hrect_ref Hrect_tgt Hcol_ref Hcol_tgt Hiter)
    as (d & headers & console & Hheaders & Hlook & Hrun).
  set (ref_keys := keys_of match_column (rows reference_file)) in *.
  set (extra := dom d ∖ list_to_set ref_keys) in *.
  set (written := omap (d !!.) ref_keys ++ omap (d !!.) (set_iter extra)) in *.
  set (file' := CsvFile output_file (Some headers) written) in *.
  assert (∀ k r, d !! k = Some r → r !! match_column = Some k) as Hkey
    by (intros k r Hk; by apply (rows_dict_key _ _ _ _ _ Hlook) in Hk as [_ ?]).
  assert (rectangular file') as Hrect'.
  { unfold rectangular in *. unfold file'. cbn [fieldnames rows].
    rewrite Hheaders in Hrect_tgt.
    rewrite Forall_forall in Hrect_tgt. apply Forall_forall. intros row Hin.
    unfold written in Hin. rewrite <- omap_app in Hin.
    apply list_elem_of_omap in Hin as (k & _ & Hk).
    by apply Hrect_tgt, (rows_dict_key _ _ _ _ _ Hlook Hk). }
  assert (has_column match_column file') as Hcol'.
  { unfold has_column in *. unfold file'. cbn [fieldnames].
    by rewrite Hheaders in Hcol_tgt. }
  destruct (reorder_to_match_done set_iter' _ _ output_file' _
              Hrect_ref Hrect' Hcol_ref Hcol' Hiter')
    as (d' & headers' & console' & Hheaders' & Hlook' & Hrun').
  assert (d' = d) as ->.
  { apply map_eq. intros k. rewrite Hlook'. unfold file'. cbn [rows]. unfold written.
    rewrite <- omap_app, (last_filter_lookups _ _ _ _ Hkey).
    case_decide as Hin; [done|]. symmetry. apply not_elem_of_dom. intros Hdom.
    apply Hin. rewrite elem_of_app, Hiter, elem_of_elements. unfold extra.
    rewrite elem_of_difference, elem_of_list_to_set.
    destruct (decide (k ∈ ref_keys)); tauto. }
  injection Hheaders' as <-. fold ref_keys extra in Hrun'.
  assert (set_iter extra ≡ₚ set_iter' extra) as Hsame by (by rewrite Hiter, Hiter').
  eexists _, _, _, _. split; [exact Hrun|]. split; [exact Hrun'|].
  cbn [output rows fieldnames rows_dict missing extra_keys].
  split; [done|]. split; [done|]. split; [done|]. split; [done|].
  assert (omap (d !!.) (set_iter extra) ≡ₚ omap (d !!.) (set_iter' extra)) as Happended
    by (by apply omap_Permutation).
  split; [unfold written; by apply Permutation_app|]. split; [|split].
  - exists (omap (d !!.) ref_keys), (omap (d !!.) (set_iter extra)),
      (omap (d !!.) (set_iter' extra)).
    split; [done|]. split; [done|]. split; [done|].
    rewrite length_lookups_present.
    + by rewrite Hiter.
    + apply Forall_forall. intros k.
      rewrite Hiter, elem_of_elements. unfold extra. rewrite elem_of_difference. tauto.
  - intros Hempty. unfold file', written. cbn [rows]. rewrite Hempty.
    assert (∀ iter : gset string → list string, iter ∅ ≡ₚ elements (∅ : gset string) →
              iter ∅ = []) as Hnil.
    { intros iter Hperm. rewrite elements_empty in Hperm.
      by apply Permutation_nil_r in Hperm. }
    by rewrite (Hnil set_iter), (Hnil set_iter').
  - intros Heq. unfold file', written. cbn [rows]. by rewrite Heq.
Qed.

Lemma reorder_is_idempotent_witness :
  ∃ console report console' report',
    reorder_to_match elements reference_ab target_dcba "out.csv" "Filename"
    = Done console report
    ∧ reorder_to_match (λ X, reverse (elements X)) reference_ab (output report)
        "again.csv" "Filename"
      = Done console' report'
    ∧ rows (output report') ≡ₚ rows (output report)
    ∧ extra_keys report' = extra_keys report.
Proof.
  destruct (reorder_is_idempotent elements (λ X, reverse (elements X))
              reference_ab target_dcba "out.csv" "again.csv" "Filename")
    as (console & report & console' & report' & Hrun & Hrun' & _ & _ & _ & Hextra
        & Hrows & _);
    [done | intros X; apply reverse_Permutation
    | compute_done | compute_done | compute_done | compute_done |].
  exists console, report, console', report'.
  split; [exact Hrun|]. split; [exact Hrun'|]. split; [exact Hrows|exact Hextra].
Defined.

(** The appended rows can indeed come out in another order: with the extra
    keys [c.wav] and [d.wav] iterated in opposite orders by the two runs,
    the second output is not the first. *)
Example reorder_twice_in_another_order :
  (∃ console report,
     reorder_to_match elements reference_ab target_dcba "out.csv" "Filename"
     = Done console report
     ∧ output report = reordered_abcd)
  ∧ (∃ console report,
       reorder_to_match (λ X, reverse (elements X)) reference_ab reordered_abcd
         "again.csv" "Filename"
       = Done console report
       ∧ rows (output report)
         = [wav "a.wav" "1.2"; wav "b.wav" "2.0"; wav "d.wav" "3.1"; wav "c.wav" "0.7"]).
Proof.
  split; eexists _, _; (split; [vm_compute; reflexivity|]); vm_compute; reflexivity.
Qed.

(** ** The summary line *)

Lemma reorder_to_match_summary
    (set_iter : gset string → list string)
    (reference_file file_to_reorder : csv_file) (output_file match_column : string) :
  (∀ X, set_iter X ≡ₚ elements X) →
  rectangular reference_file → rectangular file_to_reorder →
  has_column match_column reference_file → has_column match_column file_to_reorder →
  ∃ (d : gmap string Row) before report,
    (∀ k, d !! k = last (filter (λ row : Row, row !! match_column = Some k)
                                (rows file_to_reorder)))
    ∧ rows_dict report = d
    ∧ reference_order report = keys_of match_column (rows reference_file)
    ∧ extra_keys report = dom d ∖ list_to_set (keys_of match_column (rows reference_file))
    ∧ missing report
      = length (filter (λ k, d !! k = None) (keys_of match_column (rows reference_file)))
    ∧ rows (output report)
      = omap (d !!.) (keys_of match_column (rows reference_file))
        ++ omap (d !!.) (set_iter (extra_keys report))
    ∧ reorder_to_match set_iter reference_file file_to_reorder output_file match_column
      = Done (before ++ reorder_summary output_file (rows (output report))
                          (extra_keys report) (missing report))
          report.
Proof.
  intros Hiter Hrect_ref Hrect_tgt Hcol_ref Hcol_tgt.
  pose proof (rectangular_defines _ _ Hrect_ref Hcol_ref) as Href.
  pose proof (rectangular_defines _ _ Hrect_tgt Hcol_tgt) as Htgt.
  destruct (load_rows_dict_defined _ _ Htgt) as (d & Hload & Hlook).
  unfold has_column in Hcol_tgt.
  destruct (fieldnames file_to_reorder) as [headers|] eqn:Hheaders; [|done].
  set (order := keys_of match_column (rows reference_file)).
  set (extra := dom d ∖ list_to_set order).
  assert ((if bool_decide (extra = ∅) then Ok []
           else extra_rows d (set_iter extra)) = Ok (omap (d !!.) (set_iter extra)))
    as Happended.
  { case_bool_decide as Hextra.
    - rewrite Hextra. specialize (Hiter ∅). rewrite elements_empty in Hiter.
      apply Permutation_nil_r in Hiter. by rewrite Hiter.
    - apply extra_rows_spec, Forall_forall. intros k Hk.
      rewrite Hiter, elem_of_elements in Hk. unfold extra in Hk.
      rewrite elem_of_difference in Hk. apply elem_of_dom, Hk. }
  exists d. eexists _, (ReorderReport order d extra _ (CsvFile output_file (Some headers) _)).
  split; [done|]. cbn [rows_dict reference_order extra_keys missing output rows].
  split; [done|]. split; [done|]. split; [done|]. split; [reflexivity|]. split; [reflexivity|].
  unfold reorder_to_match.
  rewrite (read_reference_order_defined _ _ Href), Hheaders.
  rewrite bool_decide_true by done. rewrite Hload.
  fold order. fold extra. rewrite Happended, reorder_loop_spec.
  cbn [reordered_rows missing_count warnings].
  f_equal. rewrite !app_assoc. reflexivity.
Qed.

(** X4. The "Rows matched" line of the summary does not show the number of
    reference keys found in the target: it shows that number minus the
    number of missing reference keys (a negative number when more keys are
    missing than found). *)
Theorem reorder_reports_found_minus_missing
    (set_iter : gset string → list string)
    (reference_file file_to_reorder : csv_file) (output_file match_column : string) :
  (∀ X, set_iter X ≡ₚ elements X) →
  rectangular reference_file → rectangular file_to_reorder →
  has_column match_column reference_file → has_column match_column file_to_reorder →
  let ref_keys := keys_of match_column (rows reference_file) in
  let target_keys := keys_of match_column (rows file_to_reorder) in
  ∃ console report,
    reorder_to_match set_iter reference_file file_to_reorder output_file match_column
    = Done console report
    ∧ missing report = length (filter (λ k, k ∉ target_keys) ref_keys)
    ∧ "Rows matched: "
      +:+ pretty (Z.of_nat (length (filter (λ k, k ∈ target_keys) ref_keys))
                  - Z.of_nat (length (filter (λ k, k ∉ target_keys) ref_keys)))%Z
      ∈ console.
Proof.
  intros Hiter Hrect_ref Hrect_tgt Hcol_ref Hcol_tgt ref_keys target_keys.
  destruct (reorder_to_match_summary set_iter _ _ output_file _
              Hiter Hrect_ref Hrect_tgt Hcol_ref Hcol_tgt)
    as (d & before & report & Hlook & Hd & Horder & Hextra & Hmissing & Hrows & Hrun).
  fold ref_keys in Horder, Hextra, Hmissing, Hrows.
  assert (∀ k, k ∈ dom d ↔ k ∈ target_keys) as Hdom
    by (intros k; by apply rows_dict_dom).
  assert (∀ k, d !! k = None ↔ k ∉ target_keys) as Hnone
    by (intros k; by rewrite <- Hdom, not_elem_of_dom).
  assert (missing report = length (filter (λ k, k ∉ target_keys) ref_keys)) as Hmissing'
    by (by rewrite Hmissing, (list_filter_iff _ _ _ Hnone)).
  eexists _, _. split; [exact Hrun|]. split; [done|].
  apply elem_of_app. right. unfold reorder_summary.
  apply elem_of_app. left. apply elem_of_cons. right. apply list_elem_of_singleton.
  do 2 f_equal. rewrite Hmissing', Hrows, length_app.
  assert (length (omap (d !!.) (set_iter (extra_keys report))) = size (extra_keys report))
    as ->.
  { change (size (extra_keys report)) with (length (elements (extra_keys report))).
    rewrite <- (Permutation_length (Hiter (extra_keys report))).
    pose proof (length_lookups d (set_iter (extra_keys report))) as Hlen.
    rewrite (filter_none (λ k, d !! k = None)) in Hlen; [cbn in Hlen; lia|].
    apply Forall_forall. intros k Hk.
    rewrite Hiter, elem_of_elements, Hextra, elem_of_difference in Hk.
    rewrite <- not_elem_of_dom. tauto. }
  pose proof (length_lookups d ref_keys) as Hlen.
  rewrite (list_filter_iff _ _ _ Hnone) in Hlen.
  pose proof (length_filter_split (λ k, k ∈ target_keys) ref_keys) as Hsplit.
  lia.
Qed.

Lemma reorder_reports_found_minus_missing_witness :
  ∃ console report,
    reorder_to_match elements two_key_reference target_c "out.csv" "Filename"
    = Done console report
    ∧ "Rows matched: -2" ∈ console.
Proof.
  destruct (reorder_reports_found_minus_missing elements two_key_reference target_c
              "out.csv" "Filename")
    as (console & report & Hrun & _ & Hline);
    [done | compute_done | compute_done | compute_done | compute_done |].
  exists console, report. split; [exact Hrun|]. exact Hline.
Defined.

(** ** The header of the target *)

(** X5. Once the reference order is read, [reorder_to_match] looks at the
    target's header before loading any row: without a header line the
    membership test raises [TypeError]; with a header that lacks the match
    column it prints the missing column and the available ones and returns
    without writing a file. *)
Theorem reorder_checks_target_header
    (set_iter : gset string → list string)
    (reference_file file_to_reorder : csv_file) (output_file match_column : string) :
  defines match_column (rows reference_file) →
  (fieldnames file_to_reorder = None →
   reorder_to_match set_iter reference_file file_to_reorder output_file match_column
   = Raised (TypeError "argument of type 'NoneType' is not iterable"))
  ∧ (∀ headers,
       fieldnames file_to_reorder = Some headers → match_column ∉ headers →
       reorder_to_match set_iter reference_file file_to_reorder output_file match_column
       = Aborted
           ["Reading reference order from " +:+ path reference_file +:+ "...";
            "Found " +:+ pretty (length (rows reference_file))
              +:+ " rows in reference file";
            nl +:+ "Reading " +:+ path file_to_reorder +:+ "...";
            "Error: Column '" +:+ match_column +:+ "' not found in "
              +:+ path file_to_reorder;
            "Available columns: " +:+ join_comma headers]).
Proof.
  intros Hdef. unfold reorder_to_match.
  rewrite (read_reference_order_defined _ _ Hdef), (keys_of_length _ _ Hdef). split.
  - by intros ->.
  - intros headers -> Hcol. by rewrite bool_decide_false.
Qed.

Lemma reorder_checks_target_header_witness :
  reorder_to_match elements reference_ab target_without_filename "out.csv" "Filename"
  = Aborted ["Reading reference order from metadata.csv...";
             "Found 2 rows in reference file";
             nl +:+ "Reading combined.csv...";
             "Error: Column 'Filename' not found in combined.csv";
             "Available columns: name, duration_sec"].
Proof.
  destruct (reorder_checks_target_header elements reference_ab target_without_filename
              "out.csv" "Filename") as [_ Hheader]; [compute_done|].
  rewrite (Hheader ["name"; "duration_sec"]); [reflexivity | reflexivity | compute_done].
Defined.

(** * Further properties of add_durations.py *)

(** ** The written file *)

Lemma join_row_dom (d : gmap string string) (row : Row) :
  dom (join_row d row) = list_to_set ["Filename"; "duration_sec"; "transcript"].
Proof. unfold join_row, joined_row. rewrite !dom_insert_L, dom_singleton_L. set_solver. Qed.

Lemma joined_rectangular output_file (d : gmap string string) l :
  rectangular (CsvFile output_file (Some ["Filename"; "duration_sec"; "transcript"])
                 (join_row d <$> l)).
Proof.
  unfold rectangular. cbn [fieldnames rows]. apply Forall_fmap, Forall_forall.
  intros row _. apply join_row_dom.
Qed.

(** X6. The file [add_durations] writes to a path that does not name the
    transcriptions file is well formed: its header is
    [Filename, duration_sec, transcript] and every row has exactly these
    columns.  The transcript cell of a row is the input row's
    [Transcription] cell when that is present and not empty, otherwise its
    [transcript] cell, and empty when the input row has neither. *)
Theorem join_output_schema
    (samefile : string → string → bool)
    (metadata_file transcriptions_file : csv_file) (output_file : string) :
  rectangular metadata_file → rectangular transcriptions_file →
  has_column "Filename" metadata_file → has_column "duration_sec" metadata_file →
  has_column "Filename" transcriptions_file →
  samefile output_file (path transcriptions_file) = false →
  ∃ console report,
    add_durations samefile metadata_file transcriptions_file output_file
    = Done console report
    ∧ path (joined report) = output_file
    ∧ fieldnames (joined report) = Some ["Filename"; "duration_sec"; "transcript"]
    ∧ rectangular (joined report)
    ∧ ∀ i (row : Row),
        rows transcriptions_file !! i = Some row →
        ∃ out : Row,
          rows (joined report) !! i = Some out
          ∧ (∀ t, row !! "Transcription" = Some t → t ≠ "" →
                  out !! "transcript" = Some t)
          ∧ (row !! "Transcription" = None ∨ row !! "Transcription" = Some "" →
             out !! "transcript" = Some (default "" (row !! "transcript"))).
Proof.
  intros Hrect_m Hrect_t Hm1 Hm2 Ht Hnew.
  destruct (add_durations_done samefile _ _ output_file Hrect_m Hrect_t Hm1 Hm2 Ht Hnew)
    as (d & before & after & _ & Hrun).
  eexists _, _. split; [exact Hrun|]. cbn [joined path fieldnames rows].
  split; [done|]. split; [done|]. split; [apply joined_rectangular|].
  intros i row Hi. exists (join_row d row).
  rewrite list_lookup_fmap, Hi. split; [done|].
  unfold join_row.
  destruct (joined_row_lookup (filename_of row) (looked_up d row) (transcription_of row))
    as (_ & _ & ->).
  unfold transcription_of. split.
  - intros t -> Hne. by rewrite bool_decide_false.
  - by intros [->| ->].
Qed.

Lemma join_output_schema_witness :
  ∃ console report,
    add_durations same_path metadata_ab transcripts_drifted "out.csv"
    = Done console report
    ∧ rectangular (joined report)
    ∧ ∃ out : Row, rows (joined report) !! 0 = Some out ∧ out !! "transcript" = Some "bye".
Proof.
  destruct (join_output_schema same_path metadata_ab transcripts_drifted "out.csv")
    as (console & report & Hrun & _ & _ & Hrect & Hrows);
    [compute_done | compute_done | compute_done | compute_done | compute_done
    | reflexivity |].
  exists console, report. split; [exact Hrun|]. split; [exact Hrect|].
  destruct (Hrows 0 {[ "Filename" := "a.wav"; "Transcription" := ""; "transcript" := "bye" ]})
    as (out & Hout & _ & Hfallback); [reflexivity|].
  exists out. split; [exact Hout|]. rewrite Hfallback; [reflexivity|].
  right. compute_done.
Defined.

(** ** Rows that lack a column *)

Lemma load_duration_map_undefined l1 (row : Row) l2 column :
  defines "Filename" l1 → defines "duration_sec" l1 →
  (column = "Filename" ∧ row !! "Filename" = None
   ∨ column = "duration_sec" ∧ is_Some (row !! "Filename")
     ∧ row !! "duration_sec" = None) →
  load_duration_map (l1 ++ row :: l2) = Err (KeyError column).
Proof.
  intros Hdef Hdur Hrow. unfold load_duration_map.
  generalize (∅ : gmap string string) as acc. revert Hdur.
  induction Hdef as [|r l [k Hk] _ IH]; intros Hdur acc.
  - cbn [app for_each]. destruct Hrow as [[-> Hrow]|(-> & [k Hk] & Hrow)].
    + by rewrite (getitem_None _ _ Hrow).
    + rewrite (getitem_Some _ _ _ Hk). cbn [mbind result_bind].
      by rewrite (getitem_None _ _ Hrow).
  - apply Forall_cons in Hdur as [[dur Hdur0] Hdur].
    rewrite <- app_comm_cons. cbn [for_each].
    rewrite (getitem_Some _ _ _ Hk). cbn [mbind result_bind].
    rewrite (getitem_Some _ _ _ Hdur0). cbn [mbind result_bind]. by apply IH.
Qed.

Lemma join_loop_undefined (d : gmap string string) l1 (row : Row) l2 :
  defines "Filename" l1 → row !! "Filename" = None →
  join_loop d (l1 ++ row :: l2) = Err (KeyError "Filename").
Proof.
  intros Hdef Hrow. unfold join_loop. generalize (JoinState [] 0 0 0 []) as st.
  induction Hdef as [|r l Hr _ IH]; intros st.
  - cbn [app for_each]. unfold join_step. by rewrite (getitem_None _ _ Hrow).
  - rewrite <- app_comm_cons. cbn [for_each]. rewrite (join_step_defined _ _ _ Hr).
    cbn [mbind result_bind]. apply IH.
Qed.

Lemma rectangular_lacks column (f : csv_file) (row : Row) :
  rectangular f → ¬ has_column column f → row ∈ rows f → row !! column = None.
Proof.
  unfold rectangular, has_column. intros Hrect Hcol Hrow.
  destruct (fieldnames f) as [headers|]; [|rewrite Hrect in Hrow; by inversion Hrow].
  rewrite Forall_forall in Hrect. apply not_elem_of_dom.
  rewrite (Hrect row Hrow), elem_of_list_to_set. exact Hcol.
Qed.

(** X7. [add_durations] does not check its inputs' headers.  A metadata
    file with at least one row whose header lacks [Filename] ends the run
    in a [KeyError] naming [Filename], and one whose header has [Filename]
    but lacks [duration_sec] in a [KeyError] naming [duration_sec].  After
    a metadata file with both columns, a transcriptions file with at least
    one row whose header lacks [Filename] ends the run in a [KeyError]
    naming [Filename], unless the output path names the transcriptions
    file: then no row is read and the run completes with no row written. *)
Theorem join_raises_key_error
    (samefile : string → string → bool)
    (metadata_file transcriptions_file : csv_file) (output_file : string) :
  rectangular metadata_file → rectangular transcriptions_file →
  (rows metadata_file ≠ [] → ¬ has_column "Filename" metadata_file →
   add_durations samefile metadata_file transcriptions_file output_file
   = Raised (KeyError "Filename"))
  ∧ (rows metadata_file ≠ [] →
     has_column "Filename" metadata_file → ¬ has_column "duration_sec" metadata_file →
     add_durations samefile metadata_file transcriptions_file output_file
     = Raised (KeyError "duration_sec"))
  ∧ (has_column "Filename" metadata_file → has_column "duration_sec" metadata_file →
     rows transcriptions_file ≠ [] → ¬ has_column "Filename" transcriptions_file →
     (samefile output_file (path transcriptions_file) = false →
      add_durations samefile metadata_file transcriptions_file output_file
      = Raised (KeyError "Filename"))
     ∧ (samefile output_file (path transcriptions_file) = true →
        ∃ console report,
          add_durations samefile metadata_file transcriptions_file output_file
          = Done console report
          ∧ rows (joined report) = [] ∧ processed report = 0)).
Proof.
  intros Hrect_m Hrect_t. split; [|split].
  - intros Hrows Hcol. unfold add_durations.
    destruct (rows metadata_file) as [|row l] eqn:Hm; [done|].
    assert (load_duration_map (row :: l) = Err (KeyError "Filename")) as ->; [|done].
    apply (load_duration_map_undefined [] row l "Filename"); [constructor..|].
    left. split; [done|]. apply (rectangular_lacks _ metadata_file); [done..|].
    rewrite Hm. left.
  - intros Hrows Hcol1 Hcol2. unfold add_durations.
    pose proof (rectangular_defines _ _ Hrect_m Hcol1) as Hdef.
    destruct (rows metadata_file) as [|row l] eqn:Hm; [done|].
    assert (load_duration_map (row :: l) = Err (KeyError "duration_sec")) as ->; [|done].
    apply (load_duration_map_undefined [] row l "duration_sec"); [constructor..|].
    right. split; [done|]. apply Forall_cons in Hdef as [Hrow _]. split; [done|].
    apply (rectangular_lacks _ metadata_file); [done..|]. rewrite Hm. left.
  - intros Hcol1 Hcol2 Hrows Hcol.
    destruct (load_duration_map_defined _ (rectangular_defines _ _ Hrect_m Hcol1)
                (rectangular_defines _ _ Hrect_m Hcol2)) as (d & Hload & _).
    unfold add_durations, rows_read. rewrite Hload. split; intros ->.
    + destruct (rows transcriptions_file) as [|row l] eqn:Ht; [done|].
      assert (join_loop d (row :: l) = Err (KeyError "Filename")) as ->; [|done].
      apply (join_loop_undefined d [] row l); [constructor|].
      apply (rectangular_lacks _ transcriptions_file); [done..|]. rewrite Ht. left.
    + by eexists _, _.
Qed.

Lemma join_raises_key_error_witness :
  add_durations same_path metadata_ab transcripts_without_filename "out.csv"
  = Raised (KeyError "Filename")
  ∧ ∃ console report,
      add_durations same_path metadata_ab transcripts_without_filename
        "combined_transcriptions.csv" = Done console report
      ∧ rows (joined report) = [].
Proof.
  destruct (join_raises_key_error same_path metadata_ab transcripts_without_filename
              "out.csv") as (_ & _ & Hraised); [compute_done | compute_done |].
  destruct (join_raises_key_error same_path metadata_ab transcripts_without_filename
              "combined_transcriptions.csv") as (_ & _ & Hdone);
    [compute_done | compute_done |].
  split.
  - apply Hraised; [compute_done | compute_done | discriminate | compute_done | reflexivity].
  - destruct Hdone as [_ Hdone];
      [compute_done | compute_done | discriminate | compute_done |].
    destruct Hdone as (console & report & Hrun & Hrows & _); [reflexivity|].
    exists console, report. split; [exact Hrun | exact Hrows].
Defined.

(** ** The order of the metadata rows *)

Lemma filter_Permutation_singleton column (l l' : list Row) k :
  NoDup (keys_of column l) → l ≡ₚ l' →
  last (filter (λ row : Row, row !! column = Some k) l')
  = last (filter (λ row : Row, row !! column = Some k) l).
Proof.
  intros Hnd Hperm.
  destruct (last (filter (λ row : Row, row !! column = Some k) l)) as [row|] eqn:Hlast.
  - apply last_filter_elem in Hlast as [Hin Hrow].
    apply last_filter_unique; [|by rewrite <- Hperm|done].
    by rewrite <- (keys_of_Permutation _ _ _ Hperm).
  - apply last_filter_None in Hlast. apply last_filter_None. by rewrite <- Hperm.
Qed.

(** X8. When the metadata filenames are pairwise distinct, the order of the
    metadata rows is irrelevant: the run on any permutation of them is the
    same run, console and written rows included. *)
Theorem join_ignores_metadata_order
    (samefile : string → string → bool)
    (metadata_file transcriptions_file : csv_file) (output_file : string)
    (permuted : list Row) :
  rectangular metadata_file →
  has_column "Filename" metadata_file → has_column "duration_sec" metadata_file →
  NoDup (keys_of "Filename" (rows metadata_file)) →
  permuted ≡ₚ rows metadata_file →
  add_durations samefile (with_rows metadata_file permuted) transcriptions_file output_file
  = add_durations samefile metadata_file transcriptions_file output_file.
Proof.
  intros Hrect Hm1 Hm2 Hnd Hperm.
  pose proof (rectangular_defines _ _ Hrect Hm1) as Hdef1.
  pose proof (rectangular_defines _ _ Hrect Hm2) as Hdef2.
  assert (defines "Filename" permuted) as Hdef1' by (unfold defines; by rewrite Hperm).
  assert (defines "duration_sec" permuted) as Hdef2' by (unfold defines; by rewrite Hperm).
  unfold add_durations, with_rows. cbn [path rows].
  destruct (load_duration_map_defined _ Hdef1 Hdef2) as (d & -> & Hlook).
  destruct (load_duration_map_defined _ Hdef1' Hdef2') as (d' & -> & Hlook').
  assert (d' = d) as ->; [|done].
  apply map_eq. intros k. rewrite Hlook, Hlook'.
  by rewrite (filter_Permutation_singleton _ (rows metadata_file)).
Qed.

Lemma join_ignores_metadata_order_witness :
  add_durations same_path (with_rows metadata_ab [wav "b.wav" "2.0"; wav "a.wav" "1.2"])
    transcripts_bca "out.csv"
  = add_durations same_path metadata_ab transcripts_bca "out.csv".
Proof.
  apply join_ignores_metadata_order;
    [compute_done | compute_done | compute_done | compute_done |].
  apply Permutation_swap.
Defined.

(** ** Joining, then reordering against the metadata *)

Lemma keys_of_join (d : gmap string string) l :
  defines "Filename" l → keys_of "Filename" (join_row d <$> l) = keys_of "Filename" l.
Proof.
  induction 1 as [|row l [k Hk] _ IH]; [done|].
  rewrite fmap_cons, !keys_of_cons, IH, Hk. unfold join_row.
  destruct (joined_row_lookup (filename_of row) (looked_up d row) (transcription_of row))
    as (-> & _).
  unfold filename_of. by rewrite Hk.
Qed.

Lemma Forall2_lookups {A} (P : Row → A → Prop) column (d : gmap string A) (l : list Row) :
  (∀ m, m ∈ l → ∃ k out, m !! column = Some k ∧ d !! k = Some out ∧ P m out) →
  Forall2 P l (omap (d !!.) (keys_of column l)).
Proof.
  induction l as [|m l IH]; intros Hall; [constructor|].
  destruct (Hall m) as (k & out & Hk & Hout & HP); [left|].
  rewrite keys_of_cons, Hk. cbn. rewrite Hout. constructor; [done|].
  apply IH. intros m' Hm'. apply Hall. by right.
Qed.

(** X9. Steps two and three of the pipeline compose as intended.  The file
    the join writes is neither the transcriptions file it reads nor the
    metadata file, which the reorder step reads again as its reference.
    When the metadata filenames are pairwise distinct and the
    transcriptions carry exactly these filenames, joining the durations and
    then reordering the result against the metadata gives one row per
    metadata row, in metadata order, with that row's filename and duration;
    nothing is missing and nothing is appended. *)
Theorem join_then_reorder_follows_metadata
    (set_iter : gset string → list string) (samefile : string → string → bool)
    (metadata_file transcriptions_file : csv_file) (joined_file final_file : string) :
  (∀ X, set_iter X ≡ₚ elements X) →
  samefile joined_file (path transcriptions_file) = false →
  samefile joined_file (path metadata_file) = false →
  rectangular metadata_file → rectangular transcriptions_file →
  has_column "Filename" metadata_file → has_column "duration_sec" metadata_file →
  has_column "Filename" transcriptions_file →
  NoDup (keys_of "Filename" (rows metadata_file)) →
  keys_of "Filename" (rows transcriptions_file)
  ≡ₚ keys_of "Filename" (rows metadata_file) →
  ∃ console report console' report',
    add_durations samefile metadata_file transcriptions_file joined_file
    = Done console report
    ∧ reorder_to_match set_iter metadata_file (joined report) final_file "Filename"
      = Done console' report'
    ∧ missing report' = 0
    ∧ extra_keys report' = ∅
    ∧ Forall2 (λ m out : Row,
                 out !! "Filename" = m !! "Filename"
                 ∧ out !! "duration_sec" = m !! "duration_sec")
        (rows metadata_file) (rows (output report')).
Proof.
  intros Hiter Hnew _ Hrect_m Hrect_t Hm1 Hm2 Ht Hnd Hkeys.
  pose proof (rectangular_defines _ _ Hrect_m Hm1) as Hdef_m.
  pose proof (rectangular_defines _ _ Hrect_m Hm2) as Hdur_m.
  pose proof (rectangular_defines _ _ Hrect_t Ht) as Hdef_t.
  destruct (add_durations_done samefile _ _ joined_file Hrect_m Hrect_t Hm1 Hm2 Ht Hnew)
    as (d & before & after & Hlook & Hrun).
  set (ref_keys := keys_of "Filename" (rows metadata_file)) in *.
  set (out_rows := join_row d <$> rows transcriptions_file) in *.
  set (joined := CsvFile joined_file (Some ["Filename"; "duration_sec"; "transcript"])
                   out_rows) in *.
  assert (rectangular joined) as Hrect_j by apply joined_rectangular.
  assert (has_column "Filename" joined) as Hcol_j by (unfold has_column; cbn; set_solver).
  destruct (reorder_to_match_done set_iter _ _ final_file _
              Hrect_m Hrect_j Hm1 Hcol_j Hiter)
    as (d' & headers & console' & Hheaders & Hlook' & Hrun').
  fold ref_keys in Hrun'. unfold joined in Hlook'. cbn [rows] in Hlook'.
  assert (keys_of "Filename" out_rows ≡ₚ ref_keys) as Hkeys'
    by (unfold out_rows; by rewrite keys_of_join).
  assert (∀ k, k ∈ dom d' ↔ k ∈ ref_keys) as Hdom.
  { intros k. rewrite (rows_dict_dom _ _ _ _ Hlook'). by rewrite Hkeys'. }
  assert (dom d' ∖ list_to_set ref_keys = ∅) as Hextra.
  { apply set_eq. intros k.
    rewrite elem_of_difference, Hdom, elem_of_list_to_set, elem_of_empty. tauto. }
  rewrite Hextra in Hrun'.
  assert (set_iter ∅ = []) as Hnil.
  { specialize (Hiter ∅). rewrite elements_empty in Hiter.
    by apply Permutation_nil_r in Hiter. }
  rewrite Hnil in Hrun'. cbn [omap list_omap] in Hrun'. rewrite app_nil_r in Hrun'.
  eexists _, _, _, _. split; [exact Hrun|]. split; [exact Hrun'|].
  cbn [missing extra_keys output rows]. split; [|split; [done|]].
  - rewrite filter_none; [done|]. apply Forall_forall. intros k Hk.
    rewrite <- not_elem_of_dom, Hdom. tauto.
  - apply Forall2_lookups. intros m Hm.
    unfold defines in Hdef_m, Hdur_m. rewrite Forall_forall in Hdef_m, Hdur_m.
    destruct (Hdef_m m Hm) as [k Hk]. destruct (Hdur_m m Hm) as [duration Hduration].
    assert (k ∈ keys_of "Filename" (rows transcriptions_file)) as Hin.
    { rewrite Hkeys. apply elem_of_keys_of. eauto. }
    apply elem_of_keys_of in Hin as (row & Hrow & Hrk).
    assert (filename_of row = k) as Hname by (unfold filename_of; by rewrite Hrk).
    assert (d !! k = Some duration) as Hd.
    { by rewrite Hlook, (last_filter_unique _ _ m k). }
    exists k, (join_row d row). split; [done|].
    destruct (joined_row_lookup (filename_of row) (looked_up d row) (transcription_of row))
      as (Hfield1 & Hfield2 & _).
    split; [|split].
    + rewrite Hlook'. apply last_filter_unique.
      * by rewrite Hkeys'.
      * unfold out_rows. by apply list_elem_of_fmap_2.
      * unfold join_row. by rewrite Hfield1, Hname.
    + unfold join_row. by rewrite Hfield1, Hname.
    + unfold join_row. rewrite Hfield2. unfold looked_up. by rewrite Hname, Hd.
Qed.

Lemma join_then_reorder_follows_metadata_witness :
  ∃ console report console' report',
    add_durations same_path metadata_ab transcripts_ba "joined.csv" = Done console report
    ∧ reorder_to_match elements metadata_ab (joined report) "final.csv" "Filename"
      = Done console' report'
    ∧ Forall2 (λ m out : Row,
                 out !! "Filename" = m !! "Filename"
                 ∧ out !! "duration_sec" = m !! "duration_sec")
        (rows metadata_ab) (rows (output report')).
Proof.
  destruct (join_then_reorder_follows_metadata elements same_path metadata_ab
              transcripts_ba "joined.csv" "final.csv")
    as (console & report & console' & report' & Hrun & Hrun' & _ & _ & Hrows);
    [done | reflexivity | reflexivity
    | compute_done | compute_done | compute_done | compute_done | compute_done
    | compute_done | apply Permutation_swap |].
  exists console, report, console', report'.
  split; [exact Hrun|]. split; [exact Hrun'|exact Hrows].
Defined.

(** ** An output path that names the transcriptions file *)

(** X24. When the output path names the transcriptions file,
    [add_durations] empties that file before it reads the first row:
    whatever rows the file held, the run is the run on the emptied file.
    After a metadata file with both columns it completes with no row
    processed, matched or unmatched, and writes the header only, even when
    the transcriptions file had rows without a [Filename] column. *)
Theorem join_onto_its_input_reads_no_row
    (samefile : string → string → bool)
    (metadata_file transcriptions_file : csv_file) (output_file : string) :
  samefile output_file (path transcriptions_file) = true →
  add_durations samefile metadata_file transcriptions_file output_file
  = add_durations samefile metadata_file (with_rows transcriptions_file []) output_file
  ∧ (rectangular metadata_file →
     has_column "Filename" metadata_file → has_column "duration_sec" metadata_file →
     ∃ console report,
       add_durations samefile metadata_file transcriptions_file output_file
       = Done console report
       ∧ joined report
         = CsvFile output_file (Some ["Filename"; "duration_sec"; "transcript"]) []
       ∧ processed report = 0 ∧ matched report = 0 ∧ unmatched report = 0
       ∧ ∀ filename, no_duration_warning filename ∉ console).
Proof.
  intros Hsame. unfold add_durations, rows_read, with_rows. cbn [path rows].
  rewrite Hsame. split; [by destruct (samefile _ _)|].
  intros Hrect Hm1 Hm2.
  destruct (load_duration_map_defined _ (rectangular_defines _ _ Hrect Hm1)
              (rectangular_defines _ _ Hrect Hm2)) as (d & -> & _).
  eexists _, _. split; [reflexivity|].
  cbn [joined processed matched unmatched out_rows rows_processed rows_matched
       rows_unmatched join_warnings app].
  split; [done|]. split; [done|]. split; [done|]. split; [done|].
  intros filename Hin. unfold no_duration_warning in Hin.
  repeat (apply elem_of_cons in Hin as [Hin|Hin]; [by inversion Hin|]).
  by apply not_elem_of_nil in Hin.
Qed.

Lemma join_onto_its_input_reads_no_row_witness :
  ∃ console report,
    add_durations same_path metadata_ab transcripts_bca "combined_transcriptions.csv"
    = Done console report
    ∧ joined report
      = CsvFile "combined_transcriptions.csv"
          (Some ["Filename"; "duration_sec"; "transcript"]) []
    ∧ processed report = 0.
Proof.
  destruct (join_onto_its_input_reads_no_row same_path metadata_ab transcripts_bca
              "combined_transcriptions.csv") as [_ Hdone]; [reflexivity|].
  destruct Hdone as (console & report & Hrun & Hjoined & Hprocessed & _);
    [compute_done | compute_done | compute_done |].
  exists console, report. split; [exact Hrun|]. split; [exact Hjoined|exact Hprocessed].
Defined.

(** * Further properties of order_csvs.py *)

(** ** Sorting what is sorted *)

Lemma insert_keyed_least {A} (kx : string * A) (l : list (string * A)) :
  Forall (λ ky, String.le kx.1 ky.1) l → insert_keyed kx l = kx :: l.
Proof.
  destruct 1 as [|ky l Hle _]; [done|]. cbn.
  unfold String.le in Hle. by destruct (String.leb kx.1 ky.1).
Qed.

Lemma sort_keyed_sorted_id {A} (l : list (string * A)) :
  StronglySorted String.le l.*1 → sort_keyed l = l.
Proof.
  induction l as [|kx l IH]; [done|]. rewrite fmap_cons.
  intros [Hsorted Hall]%StronglySorted_inv. cbn [sort_keyed foldr].
  fold (sort_keyed l). rewrite (IH Hsorted).
  apply insert_keyed_least. rewrite Forall_forall in Hall. apply Forall_forall.
  intros ky Hky. by apply Hall, list_elem_of_fmap_2.
Qed.

Lemma sort_keyed_idempotent {A} (l : list (string * A)) :
  sort_keyed (sort_keyed l) = sort_keyed l.
Proof. apply sort_keyed_sorted_id, sort_keyed_sorted. Qed.

Lemma decorate_sorted_rows column l :
  defines column l →
  decorate column <$> (sort_keyed (decorate column <$> l)).*2
  = sort_keyed (decorate column <$> l).
Proof.
  intros Hdef.
  assert (Forall (λ p : string * Row, decorate column p.2 = p)
            (sort_keyed (decorate column <$> l))) as Hall.
  { rewrite sort_keyed_Permutation. apply Forall_fmap.
    eapply Forall_impl; [exact Hdef|]. intros row [k Hk]. by cbn. }
  induction Hall as [|p pairs Hp _ IH]; [done|].
  cbn [fmap list_fmap]. by rewrite Hp, IH.
Qed.

Lemma order_csv_files_done
    (path_stem path_suffix : string → string)
    (file1 file2 : csv_file) (sort_column output_suffix : string) :
  rectangular file1 → rectangular file2 →
  has_column sort_column file1 → has_column sort_column file2 →
  ∃ before output1 output2,
    order_csv_files path_stem path_suffix file1 file2 sort_column output_suffix
    = Done (before
            ++ compare_report (path file1) (path file2) sort_column
                 (keys_of sort_column (sorted_rows sort_column (rows file1)))
                 (keys_of sort_column (sorted_rows sort_column (rows file2))))
        (CsvFile output1 (fieldnames file1) (sorted_rows sort_column (rows file1)),
         CsvFile output2 (fieldnames file2) (sorted_rows sort_column (rows file2))).
Proof.
  intros Hrect1 Hrect2 Hcol1 Hcol2.
  pose proof (rectangular_defines _ _ Hrect1 Hcol1) as Hdef1.
  pose proof (rectangular_defines _ _ Hrect2 Hcol2) as Hdef2.
  assert (∀ l, defines sort_column l →
               defines sort_column (sort_keyed (decorate sort_column <$> l)).*2) as Hsorted.
  { intros l Hdef. unfold defines. by rewrite sorted_rows_Permutation. }
  unfold order_csv_files, has_column, sorted_rows in *.
  destruct (fieldnames file1) as [headers1|]; [|done].
  destruct (fieldnames file2) as [headers2|]; [|done].
  rewrite !bool_decide_true by done.
  rewrite !sorted_by_column_defined by done.
  rewrite !column_values_defined by auto.
  eexists _, _, _. rewrite app_assoc. reflexivity.
Qed.

Lemma sorted_rows_rectangular output (f : csv_file) column :
  rectangular f → has_column column f →
  rectangular (CsvFile output (fieldnames f) (sorted_rows column (rows f)))
  ∧ has_column column (CsvFile output (fieldnames f) (sorted_rows column (rows f))).
Proof.
  intros Hrect Hcol. split; [|done]. unfold rectangular in *. cbn [fieldnames rows].
  destruct (fieldnames f) as [headers|].
  - unfold sorted_rows. by rewrite sorted_rows_Permutation.
  - unfold sorted_rows. by rewrite Hrect.
Qed.

Lemma sorted_rows_idempotent column l :
  defines column l → sorted_rows column (sorted_rows column l) = sorted_rows column l.
Proof.
  intros Hdef. unfold sorted_rows.
  by rewrite decorate_sorted_rows, sort_keyed_idempotent.
Qed.

(** X10. Sorting is idempotent: running [order_csv_files] on the two files
    it wrote writes the same rows again. *)
Theorem order_csv_files_is_idempotent
    (path_stem path_suffix : string → string)
    (file1 file2 : csv_file) (sort_column output_suffix output_suffix' : string) :
  rectangular file1 → rectangular file2 →
  has_column sort_column file1 → has_column sort_column file2 →
  ∃ console output1 output2 console' output1' output2',
    order_csv_files path_stem path_suffix file1 file2 sort_column output_suffix
    = Done console (output1, output2)
    ∧ order_csv_files path_stem path_suffix output1 output2 sort_column output_suffix'
      = Done console' (output1', output2')
    ∧ rows output1' = rows output1 ∧ fieldnames output1' = fieldnames output1
    ∧ rows output2' = rows output2 ∧ fieldnames output2' = fieldnames output2.
Proof.
  intros Hrect1 Hrect2 Hcol1 Hcol2.
  destruct (order_csv_files_done path_stem path_suffix file1 file2 sort_column
              output_suffix Hrect1 Hrect2 Hcol1 Hcol2)
    as (before & name1 & name2 & Hrun).
  destruct (sorted_rows_rectangular name1 file1 sort_column Hrect1 Hcol1)
    as [Hrect1' Hcol1'].
  destruct (sorted_rows_rectangular name2 file2 sort_column Hrect2 Hcol2)
    as [Hrect2' Hcol2'].
  destruct (order_csv_files_done path_stem path_suffix _ _ sort_column
              output_suffix' Hrect1' Hrect2' Hcol1' Hcol2')
    as (before' & name1' & name2' & Hrun').
  eexists _, _, _, _, _, _. split; [exact Hrun|]. split; [exact Hrun'|].
  cbn [fieldnames rows].
  rewrite !sorted_rows_idempotent by (by apply rectangular_defines). done.
Qed.

Lemma order_csv_files_is_idempotent_witness :
  ∃ console output1 output2 console' output1' output2',
    order_csv_files id id target_cba transcripts_bca "Filename" "_ordered"
    = Done console (output1, output2)
    ∧ order_csv_files id id output1 output2 "Filename" "_again"
      = Done console' (output1', output2')
    ∧ rows output1' = rows output1 ∧ rows output2' = rows output2.
Proof.
  destruct (order_csv_files_is_idempotent id id target_cba transcripts_bca
              "Filename" "_ordered" "_again")
    as (console & output1 & output2 & console' & output1' & output2'
        & Hrun & Hrun' & Hrows1 & _ & Hrows2 & _);
    [compute_done | compute_done | compute_done | compute_done |].
  exists console, output1, output2, console', output1', output2'.
  split; [exact Hrun|]. split; [exact Hrun'|]. split; [exact Hrows1|exact Hrows2].
Defined.

(** ** The comparison of the two key sequences *)



(** ** A missing sort column *)

(** X12. [order_csv_files] checks the first file's header, then the
    second's: if the sort column is missing from either, it prints which
    column is missing from which file together with that file's columns,
    and returns without sorting or writing anything. *)
Theorem order_csv_files_aborts_on_missing_column
    (path_stem path_suffix : string → string)
    (file1 file2 : csv_file) (sort_column output_suffix : string) headers1 headers2 :
  fieldnames file1 = Some headers1 → fieldnames file2 = Some headers2 →
  (sort_column ∉ headers1 →
   order_csv_files path_stem path_suffix file1 file2 sort_column output_suffix
   = Aborted ["Reading " +:+ path file1 +:+ "...";
              "Reading " +:+ path file2 +:+ "...";
              "Error: Column '" +:+ sort_column +:+ "' not found in " +:+ path file1;
              "Available columns: " +:+ join_comma headers1])
  ∧ (sort_column ∈ headers1 → sort_column ∉ headers2 →
     order_csv_files path_stem path_suffix file1 file2 sort_column output_suffix
     = Aborted ["Reading " +:+ path file1 +:+ "...";
                "Reading " +:+ path file2 +:+ "...";
                "Error: Column '" +:+ sort_column +:+ "' not found in " +:+ path file2;
                "Available columns: " +:+ join_comma headers2]).
Proof.
  intros Hh1 Hh2. unfold order_csv_files. rewrite Hh1, Hh2. split.
  - intros Hcol. by rewrite bool_decide_false.
  - intros Hcol1 Hcol2. by rewrite bool_decide_true, bool_decide_false.
Qed.

Lemma order_csv_files_aborts_on_missing_column_witness :
  order_csv_files id id target_ab transcripts_ab "duration_sec" "_ordered"
  = Aborted ["Reading combined.csv..."; "Reading combined_transcriptions.csv...";
             "Error: Column 'duration_sec' not found in combined_transcriptions.csv";
             "Available columns: Filename, Transcription"].
Proof.
  destruct (order_csv_files_aborts_on_missing_column id id target_ab transcripts_ab
              "duration_sec" "_ordered" ["Filename"; "duration_sec"]
              ["Filename"; "Transcription"]) as [_ Hsecond];
    [reflexivity | reflexivity |].
  rewrite Hsecond; [reflexivity | compute_done | compute_done].
Defined.

(** * Further properties of stitch_chunks.py and merge_files.py *)

(** ** The order in which the files are stitched *)

Lemma sort_keyed_pairs_sorted {A} (l : list (string * A)) :
  StronglySorted (λ p q, String.le p.1 q.1) (sort_keyed l).
Proof.
  generalize (sort_keyed_sorted l). generalize (sort_keyed l) as sorted.
  induction sorted as [|p sorted IH]; [constructor|]. rewrite fmap_cons.
  intros [Hsorted Hall]%StronglySorted_inv. constructor; [by apply IH|].
  rewrite Forall_forall in Hall. apply Forall_forall. intros q Hq.
  by apply Hall, list_elem_of_fmap_2.
Qed.

Lemma sort_keyed_unique {A} (l l' : list (string * A)) :
  NoDup l.*1 → l ≡ₚ l' → sort_keyed l = sort_keyed l'.
Proof.
  intros Hnd Hperm.
  apply (StronglySorted_unique_strong (λ p q : string * A, String.le p.1 q.1)).
  - intros p q Hp Hq Hle Hge.
    assert (p.1 = q.1) as Hfst by (by apply (anti_symm String.le)).
    rewrite sort_keyed_Permutation in Hp. rewrite sort_keyed_Permutation, <- Hperm in Hq.
    apply list_elem_of_lookup in Hp as [i Hi]. apply list_elem_of_lookup in Hq as [j Hj].
    assert (i = j) as ->; [|congruence].
    apply (NoDup_lookup l.*1 i j p.1); [done|..];
      rewrite list_lookup_fmap; [by rewrite Hi|by rewrite Hj, Hfst].
  - apply sort_keyed_pairs_sorted.
  - apply sort_keyed_pairs_sorted.
  - by rewrite !sort_keyed_Permutation.
Qed.

(** X13. With sorting on, [stitch_csv_files] processes the files in
    lexicographic order of their paths, so its result does not depend on
    the order in which the folder is listed (the paths of a folder being
    pairwise distinct). *)
Theorem stitch_ignores_listing_order
    (samefile : string → string → bool) (reopen : list (list string) → file_content)
    (input_folder output_file : string) (glob glob' : list (string * file_content)) :
  NoDup glob.*1 → glob ≡ₚ glob' →
  stitch_csv_files samefile reopen input_folder glob output_file true
  = stitch_csv_files samefile reopen input_folder glob' output_file true
  ∧ ∀ console report,
      stitch_csv_files samefile reopen input_folder glob output_file true
      = Done console report →
      StronglySorted String.le (merged_files report).*1
      ∧ merged_files report ≡ₚ glob.
Proof.
  intros Hnd Hperm. split.
  - unfold stitch_csv_files. rewrite (sort_keyed_unique glob glob') by done.
    destruct glob as [|file glob0], glob' as [|file' glob0']; [done| | |done].
    + by apply Permutation_nil_l in Hperm.
    + by apply Permutation_nil_r in Hperm.
  - intros console report. unfold stitch_csv_files.
    destruct glob as [|file glob0]; [done|]. intros [= _ <-].
    cbn [merged_files].
    split; [apply (sort_keyed_sorted (file :: glob0))
           |apply (sort_keyed_Permutation (file :: glob0))].
Qed.

Lemma stitch_ignores_listing_order_witness :
  stitch_csv_files same_path unflushed "files" chunk_folder "out.csv" true
  = stitch_csv_files same_path unflushed "files" (reverse chunk_folder) "out.csv" true.
Proof.
  apply stitch_ignores_listing_order; [compute_done|].
  symmetry. apply reverse_Permutation.
Defined.

(** ** The size of the written file *)

Lemma length_concat_sum {A} (l : list (list A)) :
  length (concat l) = sum_list (length <$> l).
Proof.
  induction l as [|x l IH]; [done|]. cbn. rewrite length_app, IH. done.
Qed.

Lemma concatenation_length files :
  length (concatenation files)
  = data_row_count files + (if included files is [] then 0 else 1).
Proof.
  unfold concatenation, data_row_count.
  destruct (included files) as [|[header data] rest] eqn:Hincluded; [done|].
  cbn [length]. rewrite length_concat_sum. lia.
Qed.

Lemma included_none files :
  Forall (λ file, contents file = None) files → included files = [].
Proof.
  unfold included. induction 1 as [|file files Hfile _ IH]; [done|].
  cbn. by rewrite Hfile.
Qed.

(** X14. When the output file is none of the files read, the file
    [stitch_csv_files] writes has one header record exactly when a header
    was read from some input file, followed by as many records as the
    reported row total.  When every input file is empty, cannot be opened
    or fails before its header is read, the written file is empty and the
    total is zero.  A file that fails after its header was read is not among
    these: alone in its folder, it gives the output its header and the rows
    read before the failure. *)
Theorem stitch_output_length
    (samefile : string → string → bool) (reopen : list (list string) → file_content)
    (input_folder output_file : string) (glob : list (string * file_content))
    (sort_files : bool) :
  glob ≠ [] →
  Forall (λ file, samefile output_file file.1 = false) glob →
  ∃ console report,
    stitch_csv_files samefile reopen input_folder glob output_file sort_files
    = Done console report
    ∧ length (output_records report)
      = total_rows report + (if included (merged_files report) is [] then 0 else 1)
    ∧ (Forall (λ file, contents file = None) glob →
       output_records report = [] ∧ total_rows report = 0)
    ∧ (∀ name header data e,
         glob = [(name, Interrupted (header :: data) e)] →
         output_records report = header :: data ∧ total_rows report = length data).
Proof.
  intros Hglob Hnew. unfold stitch_csv_files. destruct glob as [|file0 glob']; [done|].
  set (csv_files := if sort_files then sort_keyed (file0 :: glob') else file0 :: glob').
  assert (csv_files ≡ₚ file0 :: glob') as Hperm
    by (unfold csv_files; destruct sort_files; [apply sort_keyed_Permutation|done]).
  destruct (stitch_loop_spec samefile reopen output_file (ConcatState false [] 0 [])
              csv_files) as [Hwritten Hrows]; [by rewrite Hperm|].
  cbn [written header_written rows_written] in Hwritten, Hrows.
  eexists _, _. split; [reflexivity|]. cbn [merged_files total_rows output_records].
  rewrite Hwritten, Hrows. cbn [app Nat.add]. split; [apply concatenation_length|].
  split.
  - intros Hnone.
    assert (included csv_files = []) as Hincluded
      by (apply included_none; by rewrite Hperm).
    unfold concatenation, data_row_count. by rewrite Hincluded.
  - intros name header data e [= -> ->].
    assert (csv_files = [(name, Interrupted (header :: data) e)]) as ->
      by (unfold csv_files; by destruct sort_files).
    unfold concatenation, data_row_count. cbn. rewrite app_nil_r. split; [done|lia].
Qed.

Lemma stitch_output_length_witness :
  (∃ console report,
     stitch_csv_files same_path unflushed "files"
       [("files/a.csv", Readable []); ("files/b.csv", Unreadable "Permission denied")]
       "out.csv" true = Done console report
     ∧ output_records report = [] ∧ total_rows report = 0)
  ∧ (∃ console report,
       stitch_csv_files same_path unflushed "files"
         [("files/a.csv", Interrupted [["Filename"]; ["a1.wav"]] "line contains NUL")]
         "out.csv" true = Done console report
       ∧ output_records report = [["Filename"]; ["a1.wav"]] ∧ total_rows report = 1).
Proof.
  destruct (stitch_output_length same_path unflushed "files" "out.csv"
              [("files/a.csv", Readable []); ("files/b.csv", Unreadable "Permission denied")]
              true)
    as (console & report & Hrun & _ & Hnone & _); [done|compute_done|].
  destruct (stitch_output_length same_path unflushed "files" "out.csv"
              [("files/a.csv", Interrupted [["Filename"]; ["a1.wav"]] "line contains NUL")]
              true)
    as (console' & report' & Hrun' & _ & _ & Hpart); [done|compute_done|].
  split.
  - exists console, report. split; [exact Hrun|]. apply Hnone. repeat constructor.
  - exists console', report'. split; [exact Hrun'|].
    apply (Hpart "files/a.csv" ["Filename"] [["a1.wav"]] "line contains NUL").
    reflexivity.
Defined.

(** ** Finding the files to merge *)

(** X15. [find_file_by_name] returns the first file, in listing order, whose
    base name contains the pattern (both lower-cased), and nothing exactly
    when no file does. *)
Theorem find_file_by_name_first_match
    (basename lower : string → string)
    (all_files : list (string * file_content)) (name_pattern : string) :
  let matches (file : string * file_content) :=
    contains (lower name_pattern) (lower (basename file.1)) = true in
  (∀ file,
     find_file_by_name basename lower all_files name_pattern = Some file ↔
     ∃ before after,
       all_files = before ++ file :: after
       ∧ matches file ∧ Forall (λ other, ¬ matches other) before)
  ∧ (find_file_by_name basename lower all_files name_pattern = None ↔
     Forall (λ other, ¬ matches other) all_files).
Proof.
  intros matches. unfold find_file_by_name. fold matches. split.
  - intros file. induction all_files as [|file0 files IH].
    + split; [done|]. intros (before & after & Heq & _). by destruct before.
    + rewrite filter_cons. destruct (decide (matches file0)) as [Hm|Hm]; cbn [head].
      * split.
        -- intros [= ->]. by exists [], files.
        -- intros ([|other before] & after & Heq & Hfile & Hbefore).
           ++ by injection Heq as -> _.
           ++ injection Heq as -> _. by apply Forall_cons in Hbefore as [? _].
      * rewrite IH. split.
        -- intros (before & after & -> & Hfile & Hbefore).
           exists (file0 :: before), after. split; [done|]. split; [done|].
           by constructor.
        -- intros ([|other before] & after & Heq & Hfile & Hbefore).
           ++ injection Heq as -> _. done.
           ++ injection Heq as -> ->. apply Forall_cons in Hbefore as [_ Hbefore].
              by exists before, after.
  - rewrite head_None. split.
    + intros Hnil. apply Forall_forall. intros file Hin Hm.
      assert (file ∈ filter matches all_files) as Hin'
        by (by apply list_elem_of_filter).
      rewrite Hnil in Hin'. by apply not_elem_of_nil in Hin'.
    + apply filter_none.
Qed.

Lemma find_file_by_name_first_match_witness :
  find_file_by_name id id chunk_folder "maria"
  = Some ("files/a_maria.csv", Readable []).
Proof.
  destruct (find_file_by_name_first_match id id chunk_folder "maria") as [Hsome _].
  apply Hsome.
  exists [("files/b_louis.csv", Readable [["Filename"; "Transcription"]; ["b1.wav"; "hi"]])],
    [("files/c_david.csv", Unreadable "Permission denied");
     ("files/d_michael.csv",
      Readable [["file"; "text"]; ["d1.wav"; "bye"]; ["d2.wav"; "ok"]])].
  split; [reflexivity|]. split; [reflexivity|].
  constructor; [|constructor]. vm_compute. discriminate.
Defined.



(** * Properties of compare_filenames.py *)

(** ** Reading the filenames *)

Lemma read_filenames_from (acc : list string) (data : list (list string)) :
  foldl (λ filenames row,
           match row with
           | [] => filenames
           | cell :: _ => filenames ++ [cell]
           end) acc data
  = acc ++ omap head data.
Proof.
  revert acc. induction data as [|row data IH]; intros acc; cbn [foldl].
  - cbn. by rewrite app_nil_r.
  - rewrite IH. destruct row as [|cell cells]; [done|]. cbn. by rewrite <- app_assoc.
Qed.

Lemma read_filenames_spec header data :
  read_filenames (header :: data) = Some (omap head data).
Proof. unfold read_filenames. by rewrite read_filenames_from. Qed.

Lemma compare_filenames_compared (set_iter : gset string → list string)
    file1 header1 data1 file2 header2 data2 :
  ∃ console,
    compare_filenames set_iter file1 (header1 :: data1) file2 (header2 :: data2)
    = Compared console
        (FilenamesReport (omap head data1) (omap head data2)
           (list_to_set (omap head data1) ∖ list_to_set (omap head data2))
           (list_to_set (omap head data2) ∖ list_to_set (omap head data1))
           (list_to_set (omap head data1) ∩ list_to_set (omap head data2))).
Proof. unfold compare_filenames. rewrite !read_filenames_spec. eauto. Qed.

(** X17. [compare_filenames] skips the header of either file, ignores empty
    records and takes the first cell of every other record as a filename; a
    file without any record ends the run in [StopIteration], the first file
    being read first. *)
Theorem compare_reads_first_cells (set_iter : gset string → list string)
    (file1 file2 : string) (records1 records2 : list (list string)) :
  (records1 = [] ∨ records2 = [] →
   compare_filenames set_iter file1 records1 file2 records2 = StopIteration)
  ∧ (records1 ≠ [] → records2 ≠ [] →
     ∃ console report,
       compare_filenames set_iter file1 records1 file2 records2
       = Compared console report
       ∧ filenames1 report = omap head (tail records1)
       ∧ filenames2 report = omap head (tail records2)
       ∧ length (filenames1 report)
         = length (filter (λ row, row ≠ []) (tail records1))).
Proof.
  split.
  - intros [-> | ->]; [done|]. unfold compare_filenames.
    by destruct (read_filenames records1).
  - intros Hne1 Hne2.
    destruct records1 as [|header1 data1], records2 as [|header2 data2]; try done.
    destruct (compare_filenames_compared set_iter file1 header1 data1 file2 header2 data2)
      as [console ->].
    eexists _, _. split; [done|]. cbn [filenames1 filenames2 tail].
    split; [done|]. split; [done|].
    clear. induction data1 as [|row data1 IH]; [done|]. destruct row as [|cell cells].
    + rewrite filter_cons_False by (by intros ?). exact IH.
    + rewrite filter_cons_True by done. cbn. by rewrite IH.
Qed.

Lemma compare_reads_first_cells_witness :
  ∃ console report,
    compare_filenames elements "metadata.csv" records_a "combined.csv" records_b
    = Compared console report
    ∧ filenames1 report = ["a.wav"; "b.wav"; "a.wav"]
    ∧ filenames2 report = ["b.wav"; "a.wav"].
Proof.
  destruct (compare_reads_first_cells elements "metadata.csv" "combined.csv"
              records_a records_b) as [_ Hcompared].
  destruct Hcompared as (console & report & Hrun & Hnames1 & Hnames2 & _); [done|done|].
  exists console, report. split; [exact Hrun|].
  rewrite Hnames1, Hnames2. split; reflexivity.
Defined.

(** ** The three parts of the comparison *)

Lemma size_difference_intersection (X Y : gset string) :
  size (X ∖ Y) + size (X ∩ Y) = size X.
Proof.
  rewrite <- size_union.
  - f_equal. apply set_eq. intros x.
    rewrite elem_of_union, elem_of_difference, elem_of_intersection.
    destruct (decide (x ∈ Y)); tauto.
  - apply elem_of_disjoint. intros x.
    rewrite elem_of_difference, elem_of_intersection. tauto.
Qed.

Lemma only_in_report_count (set_iter : gset string → list string) file
    (only : gset string) :
  only ≠ ∅ →
  "Filenames ONLY in " +:+ file +:+ ": " +:+ pretty (size only)
  ∈ only_in_report set_iter file only.
Proof.
  intros Hne. unfold only_in_report. rewrite bool_decide_false by done.
  apply elem_of_app. left. apply list_elem_of_further, list_elem_of_here.
Qed.

(** X18. The filenames only in the first file, those only in the second and
    the common ones are pairwise disjoint and together are all filenames of
    the two files; accordingly the printed counts add up: the count printed
    as a file's unique filenames is the number of filenames only in that
    file, which is the count printed in the heading of their listing, plus
    the count printed as common. *)
Theorem compare_partitions_filenames (set_iter : gset string → list string)
    (file1 file2 : string) (records1 records2 : list (list string))
    console report :
  compare_filenames set_iter file1 records1 file2 records2 = Compared console report →
  let set1 : gset string := list_to_set (filenames1 report) in
  let set2 : gset string := list_to_set (filenames2 report) in
  only_in_file1 report ## only_in_file2 report
  ∧ only_in_file1 report ## common report
  ∧ only_in_file2 report ## common report
  ∧ only_in_file1 report ∪ only_in_file2 report ∪ common report = set1 ∪ set2
  ∧ size (only_in_file1 report) + size (common report) = size set1
  ∧ size (only_in_file2 report) + size (common report) = size set2
  ∧ (only_in_file1 report = ∅ ∧ only_in_file2 report = ∅ ↔ set1 = set2)
  ∧ console !! 6
    = Some ("File 1 unique filenames: "
            +:+ pretty (size (only_in_file1 report) + size (common report)))
  ∧ console !! 7
    = Some ("File 2 unique filenames: "
            +:+ pretty (size (only_in_file2 report) + size (common report)))
  ∧ console !! 8 = Some ("Common filenames: " +:+ pretty (size (common report)))
  ∧ (only_in_file1 report ≠ ∅ →
     "Filenames ONLY in " +:+ file1 +:+ ": " +:+ pretty (size (only_in_file1 report))
     ∈ console)
  ∧ (only_in_file2 report ≠ ∅ →
     "Filenames ONLY in " +:+ file2 +:+ ": " +:+ pretty (size (only_in_file2 report))
     ∈ console).
Proof.
  unfold compare_filenames.
  destruct (read_filenames records1) as [names1|]; [|done].
  destruct (read_filenames records2) as [names2|]; [|done].
  intros [= <- <-].
  cbn [filenames1 filenames2 only_in_file1 only_in_file2 common]. cbv zeta.
  set (set1 := list_to_set names1 : gset string).
  set (set2 := list_to_set names2 : gset string).
  assert (∀ X Y : gset string, X ∖ Y ## X ∩ Y) as Hdisjoint.
  { intros X Y. apply elem_of_disjoint. intros x.
    rewrite elem_of_difference, elem_of_intersection. tauto. }
  assert (size (set2 ∖ set1) + size (set1 ∩ set2) = size set2) as Hsize2.
  { rewrite (comm_L (∩) set1 set2). apply size_difference_intersection. }
  split.
  { apply elem_of_disjoint. intros x. rewrite !elem_of_difference. tauto. }
  split; [apply Hdisjoint|].
  split; [rewrite (comm_L (∩) set1 set2); apply Hdisjoint|]. split.
  { apply set_eq. intros x.
    rewrite !elem_of_union, !elem_of_difference, elem_of_intersection.
    destruct (decide (x ∈ set1)), (decide (x ∈ set2)); tauto. }
  split; [apply size_difference_intersection|]. split; [exact Hsize2|].
  split.
  { split.
    - intros [H1 H2]. apply set_eq. intros x. split; intros Hx.
      + destruct (decide (x ∈ set2)) as [|Hn]; [done|].
        assert (x ∈ set1 ∖ set2) as Hin by (by apply elem_of_difference).
        rewrite H1 in Hin. by apply not_elem_of_empty in Hin.
      + destruct (decide (x ∈ set1)) as [|Hn]; [done|].
        assert (x ∈ set2 ∖ set1) as Hin by (by apply elem_of_difference).
        rewrite H2 in Hin. by apply not_elem_of_empty in Hin.
    - intros ->. split; apply set_eq; intros x;
        rewrite elem_of_difference, elem_of_empty; tauto. }
  rewrite size_difference_intersection, Hsize2.
  split; [done|]. split; [done|]. split; [done|]. split.
  - intros Hne. do 9 apply list_elem_of_further.
    rewrite !elem_of_app. left. by apply only_in_report_count.
  - intros Hne. do 9 apply list_elem_of_further.
    rewrite !elem_of_app. right. left. by apply only_in_report_count.
Qed.

Lemma compare_partitions_filenames_witness :
  ∃ console report,
    compare_filenames elements "metadata.csv" records_a "combined.csv" records_c
    = Compared console report
    ∧ size (only_in_file1 report) + size (common report) = 2
    ∧ console !! 6 = Some "File 1 unique filenames: 2"
    ∧ "Filenames ONLY in metadata.csv: 1" ∈ console.
Proof.
  destruct (compare_filenames_compared elements "metadata.csv"
              ["Filename"; "duration_sec"] (tail records_a)
              "combined.csv" ["file"; "text"] (tail records_c)) as [console Hrun].
  eexists console, _. split; [exact Hrun|].
  destruct (compare_partitions_filenames elements "metadata.csv" "combined.csv"
              records_a records_c console _ Hrun)
    as (_ & _ & _ & _ & Hsize & _ & _ & Hunique & _ & _ & Honly & _).
  rewrite Hunique, Hsize. split; [reflexivity|]. split; [reflexivity|].
  apply Honly. compute_done.
Defined.

(** ** The listings *)

Lemma sorted_strings_Permutation (l l' : list string) :
  l ≡ₚ l' → sorted_strings l = sorted_strings l'.
Proof.
  intros Hperm. unfold sorted_strings. apply (StronglySorted_unique String.le).
  - apply StronglySorted_merge_sort; apply _.
  - apply StronglySorted_merge_sort; apply _.
  - by rewrite !merge_sort_Permutation.
Qed.

Lemma elem_of_sorted_strings (l : list string) x : x ∈ sorted_strings l ↔ x ∈ l.
Proof. unfold sorted_strings. by rewrite merge_sort_Permutation. Qed.

Lemma duplicates_report_Permutation file (dups dups' filenames : list string) :
  dups ≡ₚ dups' →
  duplicates_report file dups filenames = duplicates_report file dups' filenames.
Proof.
  intros Hperm. unfold duplicates_report.
  destruct dups as [|dup dups], dups' as [|dup' dups''].
  - done.
  - by apply Permutation_nil_l in Hperm.
  - by apply Permutation_nil_r in Hperm.
  - by rewrite (sorted_strings_Permutation _ _ Hperm).
Qed.

(** X19. The report of [compare_filenames] does not depend on the order in
    which Python iterates over its sets: every listing is sorted before it
    is printed. *)
Theorem compare_ignores_set_order (set_iter set_iter' : gset string → list string)
    (file1 file2 : string) (records1 records2 : list (list string)) :
  (∀ X, set_iter X ≡ₚ elements X) → (∀ X, set_iter' X ≡ₚ elements X) →
  compare_filenames set_iter file1 records1 file2 records2
  = compare_filenames set_iter' file1 records1 file2 records2.
Proof.
  intros Hiter Hiter'.
  assert (∀ X, set_iter X ≡ₚ set_iter' X) as Hsame
    by (intros X; by rewrite Hiter, Hiter').
  unfold compare_filenames.
  destruct (read_filenames records1) as [names1|]; [|done].
  destruct (read_filenames records2) as [names2|]; [|done].
  f_equal. unfold only_in_report.
  rewrite !(sorted_strings_Permutation _ _ (Hsame _)).
  do 4 f_equal. destruct (_ && _); [|done]. f_equal.
  f_equal; apply duplicates_report_Permutation; unfold duplicates; by rewrite Hsame.
Qed.

Lemma compare_ignores_set_order_witness :
  compare_filenames elements "metadata.csv" records_a "combined.csv" records_c
  = compare_filenames (λ X, reverse (elements X))
      "metadata.csv" records_a "combined.csv" records_c.
Proof.
  apply compare_ignores_set_order; [done|].
  intros X. apply reverse_Permutation.
Defined.

Lemma compare_filenames_console (set_iter : gset string → list string)
    file1 records1 file2 records2 names1 names2 :
  read_filenames records1 = Some names1 → read_filenames records2 = Some names2 →
  let set1 : gset string := list_to_set names1 in
  let set2 : gset string := list_to_set names2 in
  ∃ before,
    compare_filenames set_iter file1 records1 file2 records2
    = Compared
        (before
         ++ only_in_report set_iter file1 (set1 ∖ set2)
         ++ only_in_report set_iter file2 (set2 ∖ set1)
         ++ (if bool_decide (set1 ∖ set2 = ∅) && bool_decide (set2 ∖ set1 = ∅)
             then
               [nl +:+ "✓ Both files have the exact same filenames!"]
               ++ duplicates_report file1 (duplicates set_iter set1 names1) names1
               ++ duplicates_report file2 (duplicates set_iter set2 names2) names2
             else []))
        (FilenamesReport names1 names2 (set1 ∖ set2) (set2 ∖ set1) (set1 ∩ set2)).
Proof. intros Hread1 Hread2. unfold compare_filenames. rewrite Hread1, Hread2. eauto. Qed.

(** X20. Every filename that only one of the files has is listed in the
    report.  When the two files have the same set of filenames, the report
    says so and lists, for either file, every filename that occurs in it
    more than once, with its number of occurrences. *)
Theorem compare_lists_differences_and_duplicates
    (set_iter : gset string → list string)
    (file1 file2 : string) (records1 records2 : list (list string))
    console report :
  (∀ X, set_iter X ≡ₚ elements X) →
  compare_filenames set_iter file1 records1 file2 records2 = Compared console report →
  (∀ f, f ∈ filenames1 report → f ∉ filenames2 report → "  - " +:+ f ∈ console)
  ∧ (∀ f, f ∈ filenames2 report → f ∉ filenames1 report → "  - " +:+ f ∈ console)
  ∧ ((∀ f, f ∈ filenames1 report ↔ f ∈ filenames2 report) →
     nl +:+ "✓ Both files have the exact same filenames!" ∈ console
     ∧ (∀ f, 1 < count_of f (filenames1 report) →
             "  - " +:+ f +:+ " appears " +:+ pretty (count_of f (filenames1 report))
               +:+ " times" ∈ console)
     ∧ (∀ f, 1 < count_of f (filenames2 report) →
             "  - " +:+ f +:+ " appears " +:+ pretty (count_of f (filenames2 report))
               +:+ " times" ∈ console)).
Proof.
  intros Hiter Hrun.
  destruct (read_filenames records1) as [names1|] eqn:Hread1;
    [|unfold compare_filenames in Hrun; by rewrite Hread1 in Hrun].
  destruct (read_filenames records2) as [names2|] eqn:Hread2;
    [|unfold compare_filenames in Hrun; by rewrite Hread1, Hread2 in Hrun].
  destruct (compare_filenames_console set_iter file1 records1 file2 records2
              names1 names2 Hread1 Hread2) as [before Hconsole].
  rewrite Hconsole in Hrun. injection Hrun as <- <-. clear Hconsole.
  cbn [filenames1 filenames2].
  set (set1 := list_to_set names1 : gset string).
  set (set2 := list_to_set names2 : gset string).
  assert (∀ file (only : gset string) f,
            f ∈ only → "  - " +:+ f ∈ only_in_report set_iter file only) as Honly.
  { intros file only f Hf. unfold only_in_report.
    rewrite bool_decide_false by (intros ->; by apply not_elem_of_empty in Hf).
    apply elem_of_app. right. apply list_elem_of_fmap_2'  with f; [|done].
    by rewrite elem_of_sorted_strings, Hiter, elem_of_elements. }
  assert (∀ file (keys : gset string) names f,
            f ∈ keys → 1 < count_of f names →
            "  - " +:+ f +:+ " appears " +:+ pretty (count_of f names) +:+ " times"
            ∈ duplicates_report file (duplicates set_iter keys names) names) as Hdups.
  { intros file keys names f Hf Hcount.
    assert (f ∈ duplicates set_iter keys names) as Hin.
    { unfold duplicates. apply list_elem_of_filter. split; [done|].
      by rewrite Hiter, elem_of_elements. }
    unfold duplicates_report.
    destruct (duplicates set_iter keys names) as [|dup dups] eqn:Heq;
      [by apply not_elem_of_nil in Hin|].
    apply elem_of_app. right. apply list_elem_of_fmap_2' with f; [|done].
    by rewrite elem_of_sorted_strings. }
  assert (∀ f names, 1 < count_of f names → f ∈ names) as Hcounted.
  { intros f names Hcount. unfold count_of in Hcount.
    destruct (filter (λ g, g = f) names) as [|g rest] eqn:Hfilter; [cbn in Hcount; lia|].
    assert (g ∈ filter (λ g, g = f) names) as Hg by (rewrite Hfilter; left).
    by apply list_elem_of_filter in Hg as [-> ?]. }
  split; [|split].
  - intros f Hf Hnf. rewrite !elem_of_app. right. left. apply Honly.
    apply elem_of_difference. unfold set1, set2. by rewrite !elem_of_list_to_set.
  - intros f Hf Hnf. rewrite !elem_of_app. right. right. left. apply Honly.
    apply elem_of_difference. unfold set1, set2. by rewrite !elem_of_list_to_set.
  - intros Hsame.
    assert (set1 ∖ set2 = ∅ ∧ set2 ∖ set1 = ∅) as [-> ->].
    { split; apply set_eq; intros f;
        rewrite elem_of_difference, elem_of_empty; unfold set1, set2;
        rewrite !elem_of_list_to_set, Hsame; tauto. }
    rewrite !bool_decide_true by done. cbn [andb].
    split; [|split].
    + rewrite !elem_of_app. do 3 right. apply list_elem_of_here.
    + intros f Hcount. rewrite !elem_of_app. do 3 right.
      apply list_elem_of_further, elem_of_app. left.
      apply Hdups; [|done]. unfold set1. rewrite elem_of_list_to_set. by apply Hcounted.
    + intros f Hcount. rewrite !elem_of_app. do 3 right.
      apply list_elem_of_further, elem_of_app. right.
      apply Hdups; [|done]. unfold set2. rewrite elem_of_list_to_set. by apply Hcounted.
Qed.

Lemma compare_lists_differences_and_duplicates_witness :
  ∃ console report,
    compare_filenames elements "metadata.csv" records_a "combined.csv" records_b
    = Compared console report
    ∧ "  - a.wav appears 2 times" ∈ console.
Proof.
  destruct (compare_filenames_compared elements "metadata.csv"
              ["Filename"; "duration_sec"] (tail records_a)
              "combined.csv" ["file"; "text"] (tail records_b)) as [console Hrun].
  eexists console, _. split; [exact Hrun|].
  destruct (compare_lists_differences_and_duplicates elements "metadata.csv" "combined.csv"
              records_a records_b console _ (λ X, reflexivity _) Hrun)
    as (_ & _ & Hsame).
  destruct Hsame as (_ & Hdups & _).
  { intros f. cbn. split; intros Hf;
      repeat (apply elem_of_cons in Hf as [->|Hf]);
      try (by apply not_elem_of_nil in Hf); compute_done. }
  apply (Hdups "a.wav"). cbn [filenames1]. vm_compute. lia.
Defined.

(** * Properties of process.py *)

Lemma append_assoc (s1 s2 s3 : string) : (s1 +:+ s2) +:+ s3 = s1 +:+ s2 +:+ s3.
Proof.
  induction s1 as [|c s1 IH]; [done|].
  change (String c ((s1 +:+ s2) +:+ s3) = String c (s1 +:+ s2 +:+ s3)).
  by rewrite IH.
Qed.

Lemma ends_with_slash_app (s t : string) :
  t ≠ "" → ends_with_slash (s +:+ t) = ends_with_slash t.
Proof.
  intros Ht. induction s as [|c s IH]; [done|].
  change (String c s +:+ t) with (String c (s +:+ t)).
  cbn [ends_with_slash]. destruct (s +:+ t) eqn:Hst; [|done].
  destruct s; [by subst|discriminate].
Qed.

(** Joining the output folder of a name with a relative file name. *)
Lemma path_join_relative (name file : string) :
  String.prefix "/" file = false →
  path_join (name +:+ "_generated_files") file
  = (name +:+ "_generated_files") +:+ "/" +:+ file.
Proof.
  intros Hfile. unfold path_join. rewrite Hfile.
  rewrite ends_with_slash_app by done.
  rewrite bool_decide_false; [done|]. by destruct name.
Qed.

Lemma path_join_final (name : string) :
  path_join (name +:+ "_generated_files") (name +:+ "_final.csv") = final_path name.
Proof.
  assert (String.prefix "/" (name +:+ "_final.csv") = String.prefix "/" name) as Hprefix.
  { destruct name as [|c name]; [done|].
    change (String c name +:+ "_final.csv") with (String c (name +:+ "_final.csv")).
    cbn [String.prefix]. destruct (Ascii.ascii_dec "/" c); [|done]. by destruct name. }
  unfold final_path. destruct (String.prefix "/" name) eqn:Hname.
  - unfold path_join. by rewrite Hprefix.
  - rewrite path_join_relative by done. by rewrite !append_assoc.
Qed.

Lemma pipeline_commands (name : string) :
  ["python3"; "stitch_chunks.py"; "-i"; name +:+ "_files"; "-o";
   path_join (name +:+ "_generated_files") "combined_transcriptions.csv"]
  = stitch_command name
  ∧ ["python3"; "add_durations.py"; "-m"; "metadata_copy.csv"; "-t";
     path_join (name +:+ "_generated_files") "combined_transcriptions.csv"; "-o";
     path_join (name +:+ "_generated_files") "combined_transcriptions_duration.csv"]
    = add_durations_command name
  ∧ ["python3"; "reorder_to_match.py"; "-r"; "metadata_copy.csv"; "-i";
     path_join (name +:+ "_generated_files") "combined_transcriptions_duration.csv"; "-o";
     path_join (name +:+ "_generated_files") (name +:+ "_final.csv")]
    = reorder_command name.
Proof.
  unfold stitch_command, add_durations_command, reorder_command.
  rewrite !path_join_relative by done.
  rewrite (path_join_final name). by rewrite !append_assoc.
Qed.

Lemma run_command_spec (env : environment) command description st :
  commands_run (run_command env command description st).1 = commands_run st ++ [command]
  ∧ (returncode (subprocess_run env command) = 0%Z →
     (run_command env command description st).2 = Returned)
  ∧ (returncode (subprocess_run env command) ≠ 0%Z →
     (run_command env command description st).2 = SysExit 1).
Proof.
  unfold run_command. case_bool_decide as Hcode; cbn [fst snd commands_run]; tauto.
Qed.

(** The final file of a relative name lies in the output folder; that of a
    name that starts with a slash does not. *)
Example final_path_examples :
  final_path "Sarah" = "Sarah_generated_files/Sarah_final.csv"
  ∧ final_path "/srv/Sarah" = "/srv/Sarah_final.csv"
  ∧ path_join "/srv/Sarah_generated_files" "/srv/Sarah_final.csv" = "/srv/Sarah_final.csv"
  ∧ path_join "out/" "a.csv" = "out/a.csv"
  ∧ path_join "" "a.csv" = "a.csv".
Proof. repeat split. Qed.

(** X21. [process_transcriptions] runs the three steps in the order stitch,
    join, reorder, each only after the previous one returned status 0: the
    commands run are those up to and including the first that fails, the
    run ends with [sys.exit(1)] when one fails and returns only when all
    three succeeded.  The paths in the commands are those [os.path.join]
    gives, whatever the name: the last step writes to [final_path name]. *)
Theorem pipeline_stops_at_first_failure (env : environment) (name : string) :
  path_exists env (name +:+ "_files") = true →
  path_isdir env (name +:+ "_files") = true →
  glob_csv env (name +:+ "_files") ≠ [] →
  path_exists env "metadata_copy.csv" = true →
  makedirs env (name +:+ "_generated_files") = None →
  let code command := returncode (subprocess_run env command) in
  let run := process_transcriptions env name in
  commands_run run.1
  = stitch_command name
    :: (if bool_decide (code (stitch_command name) = 0%Z)
        then add_durations_command name
             :: (if bool_decide (code (add_durations_command name) = 0%Z)
                 then [reorder_command name] else [])
        else [])
  ∧ (run.2 = Returned ↔
     code (stitch_command name) = 0%Z
     ∧ code (add_durations_command name) = 0%Z
     ∧ code (reorder_command name) = 0%Z)
  ∧ (run.2 = Returned ∨ run.2 = SysExit 1).
Proof.
  intros Hexists Hisdir Hglob Hmetadata Hmakedirs code run.
  unfold run, process_transcriptions.
  rewrite Hexists, Hisdir, Hmetadata, Hmakedirs. cbn [negb].
  destruct (glob_csv env (name +:+ "_files")) as [|file files]; [done|].
  destruct (pipeline_commands name) as (-> & -> & ->).
  set (st0 := ProcessState _ [] []).
  destruct (run_command_spec env (stitch_command name)
              ("Stitching CSV files from " +:+ name +:+ "_files") st0)
    as (Hrun1 & Hok1 & Hfail1).
  destruct (run_command env (stitch_command name) _ st0) as [st1 end1].
  cbn [fst snd] in Hrun1, Hok1, Hfail1. fold (code (stitch_command name)) in Hok1, Hfail1.
  case_bool_decide as Hcode1; cycle 1.
  { rewrite (Hfail1 Hcode1). cbn [fst snd]. rewrite Hrun1.
    split; [done|]. split; [|by right]. split; [done|]. by intros [? _]. }
  rewrite (Hok1 Hcode1).
  destruct (run_command_spec env (add_durations_command name)
              "Adding duration_sec column from metadata" st1)
    as (Hrun2 & Hok2 & Hfail2).
  destruct (run_command env (add_durations_command name) _ st1) as [st2 end2].
  cbn [fst snd] in Hrun2, Hok2, Hfail2.
  fold (code (add_durations_command name)) in Hok2, Hfail2.
  case_bool_decide as Hcode2; cycle 1.
  { rewrite (Hfail2 Hcode2). cbn [fst snd]. rewrite Hrun2, Hrun1.
    split; [done|]. split; [|by right]. split; [done|]. by intros (_ & ? & _). }
  rewrite (Hok2 Hcode2).
  destruct (run_command_spec env (reorder_command name)
              "Reordering to match metadata row order" st2)
    as (Hrun3 & Hok3 & Hfail3).
  destruct (run_command env (reorder_command name) _ st2) as [st3 end3].
  cbn [fst snd] in Hrun3, Hok3, Hfail3.
  fold (code (reorder_command name)) in Hok3, Hfail3.
  destruct (decide (code (reorder_command name) = 0%Z)) as [Hcode3|Hcode3].
  - rewrite (Hok3 Hcode3). cbn [fst snd commands_run]. rewrite Hrun3, Hrun2, Hrun1.
    split; [done|]. split; [done|]. by left.
  - rewrite (Hfail3 Hcode3). cbn [fst snd]. rewrite Hrun3, Hrun2, Hrun1.
    split; [done|]. split; [|by right]. split; [done|]. by intros (_ & _ & ?).
Qed.

Lemma pipeline_stops_at_first_failure_witness :
  commands_run (process_transcriptions failing_join_environment "Sarah").1
  = [stitch_command "Sarah"; add_durations_command "Sarah"]
  ∧ (process_transcriptions failing_join_environment "Sarah").2 = SysExit 1.
Proof.
  destruct (pipeline_stops_at_first_failure failing_join_environment "Sarah")
    as (Hcommands & _ & Hending);
    [reflexivity | reflexivity | compute_done | reflexivity | reflexivity |].
  split; [rewrite Hcommands; reflexivity|].
  destruct Hending as [Hreturned|Hexit]; [|exact Hexit].
  vm_compute in Hreturned. discriminate Hreturned.
Defined.

(** X22. When the input folder is missing or not a directory, holds no CSV
    file, or the metadata file is missing, [process_transcriptions] exits
    with status 1 before creating the output folder or running any step. *)
Theorem pipeline_checks_inputs_first (env : environment) (name : string) :
  path_exists env (name +:+ "_files") = false
  ∨ path_isdir env (name +:+ "_files") = false
  ∨ glob_csv env (name +:+ "_files") = []
  ∨ path_exists env "metadata_copy.csv" = false →
  commands_run (process_transcriptions env name).1 = []
  ∧ (process_transcriptions env name).2 = SysExit 1.
Proof.
  intros Hbad. unfold process_transcriptions.
  destruct (path_exists env (name +:+ "_files")) eqn:Hexists; [|done].
  destruct (path_isdir env (name +:+ "_files")) eqn:Hisdir; [|done].
  destruct (glob_csv env (name +:+ "_files")) as [|file files] eqn:Hglob; [done|].
  destruct (path_exists env "metadata_copy.csv") eqn:Hmetadata; [|done].
  cbn [negb]. by destruct Hbad as [?|[?|[?|?]]].
Qed.

Lemma pipeline_checks_inputs_first_witness :
  commands_run (process_transcriptions failing_join_environment "Maria").1 = []
  ∧ (process_transcriptions failing_join_environment "Maria").2 = SysExit 1.
Proof.
  apply pipeline_checks_inputs_first. left. reflexivity.
Defined.

Lemma process_commands_prefix (env : environment) (name : string) :
  commands_run (process_transcriptions env name).1
  `prefix_of` [stitch_command name; add_durations_command name; reorder_command name]
  ∧ (path_exists env "metadata_copy.csv" = false →
     commands_run (process_transcriptions env name).1 = []).
Proof.
  unfold process_transcriptions.
  destruct (path_exists env (name +:+ "_files")); cbn [negb];
    [|split; [apply prefix_nil|done]].
  destruct (path_isdir env (name +:+ "_files")); cbn [negb];
    [|split; [apply prefix_nil|done]].
  destruct (glob_csv env (name +:+ "_files")) as [|file files];
    [split; [apply prefix_nil|done]|].
  destruct (path_exists env "metadata_copy.csv"); cbn [negb];
    [|split; [apply prefix_nil|done]].
  split; [|done].
  destruct (makedirs env (name +:+ "_generated_files")); [apply prefix_nil|].
  destruct (pipeline_commands name) as (-> & -> & ->).
  set (st0 := ProcessState _ [] []).
  destruct (run_command_spec env (stitch_command name)
              ("Stitching CSV files from " +:+ name +:+ "_files") st0) as (Hrun1 & _).
  destruct (run_command env (stitch_command name) _ st0) as [st1 end1].
  cbn [fst] in Hrun1.
  destruct end1; cbn [fst]; rewrite ?Hrun1;
    try (by exists [add_durations_command name; reorder_command name]).
  destruct (run_command_spec env (add_durations_command name)
              "Adding duration_sec column from metadata" st1) as (Hrun2 & _).
  destruct (run_command env (add_durations_command name) _ st1) as [st2 end2].
  cbn [fst] in Hrun2.
  destruct end2; cbn [fst]; rewrite ?Hrun2, ?Hrun1;
    try (by exists [reorder_command name]).
  destruct (run_command_spec env (reorder_command name)
              "Reordering to match metadata row order" st2) as (Hrun3 & _).
  destruct (run_command env (reorder_command name) _ st2) as [st3 end3].
  cbn [fst] in Hrun3.
  destruct end3; cbn [fst commands_run]; by rewrite Hrun3, Hrun2, Hrun1.
Qed.

(** X23. The [-m/--metadata] option of process.py has no effect: [main]
    stores it in a module-level variable that nothing reads, and the run is
    the one with the default; whatever the option says, the metadata file
    that is checked, joined and reordered against is [metadata_copy.csv]. *)
Theorem main_ignores_metadata_option (env : environment) (name metadata : string) :
  (main env name metadata).2 = (main env name "metadata_copy.csv").2
  ∧ commands_run (main env name metadata).2.1
    `prefix_of` [stitch_command name; add_durations_command name; reorder_command name]
  ∧ (path_exists env "metadata_copy.csv" = false →
     commands_run (main env name metadata).2.1 = []).
Proof.
  split; [done|]. unfold main. cbn [snd]. apply process_commands_prefix.
Qed.

Lemma main_ignores_metadata_option_witness :
  (main failing_join_environment "Sarah" "other_metadata.csv").2
  = (main failing_join_environment "Sarah" "metadata_copy.csv").2
  ∧ (main failing_join_environment "Sarah" "other_metadata.csv").1
    = Some "other_metadata.csv".
Proof.
  destruct (main_ignores_metadata_option failing_join_environment "Sarah"
              "other_metadata.csv") as [Hsame _].
  split; [exact Hsame|reflexivity].
Defined.
